(** * go-aci: the rule expression engine of package [aci]

  A shallow embedding of the Go sources [misc.go] and [target.go]
  (with the pieces of [kw.go], [inherit.go] and [ssf.go] they rely on)
  and of the fragment of the go-stackage dependency they call, followed
  by the properties stated for them.

  Conventions.
  - Go [string] is a byte string: Rocq [string].
  - Go [uint8]/[int] values are [Z].
  - A Go pointer that may be nil is an [option]; a struct wrapping such a
    pointer (stackage.Condition, stackage.Stack) is [option] of a record,
    and a method that mutates through the pointer returns the new state.
  - A Go [error] is [option string]; [None] is the nil error.
  - A value of interface type [any] is a value of the inductive [any]. *)

From Stdlib Require Import ZArith List String Ascii Bool Lia.
From stdpp Require Import gmap.
Import ListNotations.
Open Scope string_scope.
Open Scope Z_scope.

(** ** Go's [strings], [unicode] and [strconv] primitives used by the package *)

Module strings.

Definition byte_of (c : ascii) : Z := Z.of_N (N_of_ascii c).

Definition between (lo hi x : Z) : bool := (lo <=? x) && (x <=? hi).

(** [unicode.IsDigit], [unicode.IsLower], [unicode.IsUpper] applied to
    [rune(b)] for a byte [b], that is on the Latin-1 code points. *)
Definition isDigit (c : ascii) : bool := between 48 57 (byte_of c).

Definition isLower (c : ascii) : bool :=
  let b := byte_of c in
  between 97 122 b || (b =? 181) || between 223 246 b || between 248 255 b.

Definition isUpper (c : ascii) : bool :=
  let b := byte_of c in
  between 65 90 b || between 192 214 b || between 216 222 b.

(** ASCII case mapping of one byte. *)
Definition lower_byte (c : ascii) : ascii :=
  if between 65 90 (byte_of c)
  then ascii_of_N (N_of_ascii c + 32)
  else c.

Definition upper_byte (c : ascii) : ascii :=
  if between 97 122 (byte_of c)
  then ascii_of_N (N_of_ascii c - 32)
  else c.

(** [strings.ToLower] and [strings.ToUpper] on ASCII text (bytes above
    127 are kept as they are). *)
Fixpoint ToLower (s : string) : string :=
  match s with
  | EmptyString => EmptyString
  | String c r => String (lower_byte c) (ToLower r)
  end.

Fixpoint ToUpper (s : string) : string :=
  match s with
  | EmptyString => EmptyString
  | String c r => String (upper_byte c) (ToUpper r)
  end.

(** [strings.EqualFold] on ASCII text: equality up to the case of the
    letters a-z. *)
Definition EqualFold (s t : string) : bool :=
  String.eqb (ToLower s) (ToLower t).

(** [strings.HasPrefix]; returns the remainder as well, as
    [strings.CutPrefix] does. *)
Fixpoint CutPrefix (s p : string) {struct p} : option string :=
  match p, s with
  | EmptyString, _ => Some s
  | String a p', String b s' =>
      if Ascii.eqb a b then CutPrefix s' p' else None
  | String _ _, EmptyString => None
  end.

Definition HasPrefix (s p : string) : bool :=
  match CutPrefix s p with Some _ => true | None => false end.

(** [strings.Cut] with a one-byte separator: the text before and after
    the first occurrence of [c], when there is one. *)
Fixpoint Cut (c : ascii) (s : string) : option (string * string) :=
  match s with
  | EmptyString => None
  | String a r =>
      if Ascii.eqb a c then Some (EmptyString, r)
      else match Cut c r with
           | Some (l, t) => Some (String a l, t)
           | None => None
           end
  end.

(** [strings.Split] with a one-byte separator. *)
Fixpoint Split (c : ascii) (s : string) : list string :=
  match s with
  | EmptyString => [EmptyString]
  | String a r =>
      if Ascii.eqb a c then EmptyString :: Split c r
      else match Split c r with
           | [] => [String a EmptyString]
           | h :: t => String a h :: t
           end
  end.

(** [strings.Join]. *)
Fixpoint Join (l : list string) (sep : string) : string :=
  match l with
  | [] => EmptyString
  | [x] => x
  | x :: r => x ++ sep ++ Join r sep
  end.

(** Decimal value of a run of ASCII digits, most significant first. *)
Fixpoint digits (acc : Z) (s : string) : option Z :=
  match s with
  | EmptyString => Some acc
  | String c r =>
      if isDigit c then digits (10 * acc + (byte_of c - 48)) r else None
  end.

(** [strconv.Atoi]: an optional sign and at least one decimal digit
    (values that overflow [int] are not modelled). *)
Definition Atoi (s : string) : option Z :=
  match s with
  | EmptyString => None
  | String c r =>
      if Ascii.eqb c "+" then
        match r with EmptyString => None | _ => digits 0 r end
      else if Ascii.eqb c "-" then
        match r with
        | EmptyString => None
        | _ => option_map Z.opp (digits 0 r)
        end
      else digits 0 s
  end.

Definition digit_char (d : Z) : ascii := ascii_of_N (Z.to_N (48 + d)).

(** [strconv.Itoa] for the small non-negative values the package prints
    (up to three digits). *)
Definition Itoa (n : Z) : string :=
  if n <? 10 then String (digit_char n) EmptyString
  else if n <? 100 then
    String (digit_char (n / 10)) (String (digit_char (n mod 10)) EmptyString)
  else
    String (digit_char (n / 100))
      (String (digit_char ((n / 10) mod 10))
         (String (digit_char (n mod 10)) EmptyString)).

End strings.

(** ** The fragment of go-stackage the package is built on *)

Module stackage.

(** [stackage.ComparisonOperator] is a [uint8]. *)
Definition ComparisonOperator := Z.

Definition Eq : ComparisonOperator := 1.
Definition Ne : ComparisonOperator := 2.
Definition Lt : ComparisonOperator := 3.
Definition Le : ComparisonOperator := 4.
Definition Gt : ComparisonOperator := 5.
Definition Ge : ComparisonOperator := 6.

(** The three textual forms of an operator: [String] (the symbol),
    [Context] (the short name) and [Description], as listed in the
    documentation of [TargetRuleMethods.Index].  A value that is none of
    the six operators has no registered form. *)
Definition cop_String (r : ComparisonOperator) : string :=
  match r with
  | 1 => "=" | 2 => "!=" | 3 => "<" | 4 => "<=" | 5 => ">" | 6 => ">="
  | _ => ""
  end.

Definition cop_Context (r : ComparisonOperator) : string :=
  match r with
  | 1 => "Eq" | 2 => "Ne" | 3 => "Lt" | 4 => "Le" | 5 => "Gt" | 6 => "Ge"
  | _ => ""
  end.

Definition cop_Description (r : ComparisonOperator) : string :=
  match r with
  | 1 => "Equal To"
  | 2 => "Not Equal To"
  | 3 => "Less Than"
  | 4 => "Less Than Or Equal"
  | 5 => "Greater Than"
  | 6 => "Greater Than Or Equal"
  | _ => ""
  end.

(** *** Conditions and stacks

    go-stackage is a dependency, not part of the package; what follows
    records the behaviour the package relies on: the fields a
    [Condition] and a [Stack] hold behind their pointer, the setters
    (which allocate the value behind a nil pointer before writing to it),
    and the text [String] produces. *)

Definition dq : string := String.String (ascii_of_nat 34) EmptyString.

(** A LIST stack and its configuration.  [s_cap] is the capacity given to
    the constructor, 0 when there is none. *)
Record stack (A : Type) : Type := mkStack {
  s_elems : list A;
  s_cap : Z;
  s_readonly : bool;
  s_delim : string;
  s_nopad : bool;
  s_paren : bool;
  s_encap : option string;
  s_id : string;
  s_category : string
}.

Arguments mkStack {A}.
Arguments s_elems {A}.
Arguments s_cap {A}.
Arguments s_readonly {A}.
Arguments s_delim {A}.
Arguments s_nopad {A}.
Arguments s_paren {A}.
Arguments s_encap {A}.
Arguments s_id {A}.
Arguments s_category {A}.

(** [stackage.Stack]: a struct around a pointer that may be nil. *)
Definition Stack (A : Type) : Type := option (stack A).

(** The expression of a condition: nothing, a scalar rendered as text, or
    a stack of values each rendered as text. *)
Inductive expression : Type :=
| ex_nil
| ex_string (s : string)
| ex_stack (s : stack string).

Record condition : Type := mkCondition {
  c_kw : string;
  c_op : option ComparisonOperator;
  c_ex : expression;
  c_paren : bool;
  c_nopad : bool;
  c_encap : option string;
  c_id : string;
  c_category : string
}.

(** [stackage.Condition]: a struct around a pointer that may be nil. *)
Definition Condition : Type := option condition.

Definition initCondition : condition :=
  mkCondition "" None ex_nil false false None "" "".

Definition init (r : Condition) : condition :=
  match r with Some c => c | None => initCondition end.

Definition Condition_IsZero (r : Condition) : bool :=
  match r with None => true | Some _ => false end.

Definition Condition_Keyword (r : Condition) : string :=
  match r with None => "" | Some c => c_kw c end.

Definition Condition_Operator (r : Condition) : option ComparisonOperator :=
  match r with None => None | Some c => c_op c end.

Definition Condition_Expression (r : Condition) : expression :=
  match r with None => ex_nil | Some c => c_ex c end.

Definition Condition_IsParen (r : Condition) : bool :=
  match r with None => false | Some c => c_paren c end.

Definition set_kw (k : string) (c : condition) : condition :=
  mkCondition k (c_op c) (c_ex c) (c_paren c) (c_nopad c) (c_encap c)
    (c_id c) (c_category c).

Definition set_op (o : option ComparisonOperator) (c : condition) : condition :=
  mkCondition (c_kw c) o (c_ex c) (c_paren c) (c_nopad c) (c_encap c)
    (c_id c) (c_category c).

Definition set_ex (e : expression) (c : condition) : condition :=
  mkCondition (c_kw c) (c_op c) e (c_paren c) (c_nopad c) (c_encap c)
    (c_id c) (c_category c).

Definition set_paren (b : bool) (c : condition) : condition :=
  mkCondition (c_kw c) (c_op c) (c_ex c) b (c_nopad c) (c_encap c)
    (c_id c) (c_category c).

Definition set_nopad (b : bool) (c : condition) : condition :=
  mkCondition (c_kw c) (c_op c) (c_ex c) (c_paren c) b (c_encap c)
    (c_id c) (c_category c).

Definition set_encap (q : option string) (c : condition) : condition :=
  mkCondition (c_kw c) (c_op c) (c_ex c) (c_paren c) (c_nopad c) q
    (c_id c) (c_category c).

Definition set_id (i : string) (c : condition) : condition :=
  mkCondition (c_kw c) (c_op c) (c_ex c) (c_paren c) (c_nopad c) (c_encap c)
    i (c_category c).

(** The setters of [Condition], each on the value behind the pointer. *)
Definition Condition_SetKeyword (k : string) (r : Condition) : Condition :=
  Some (set_kw k (init r)).

Definition Condition_SetOperator (o : ComparisonOperator) (r : Condition) : Condition :=
  Some (set_op (Some o) (init r)).

Definition Condition_SetExpression (e : expression) (r : Condition) : Condition :=
  Some (set_ex e (init r)).

Definition Condition_Paren (b : bool) (r : Condition) : Condition :=
  Some (set_paren b (init r)).

Definition Condition_NoPadding (b : bool) (r : Condition) : Condition :=
  Some (set_nopad b (init r)).

(** [Encap(q)] encloses the value in [q]; [Encap()] removes the
    encapsulation. *)
Definition Condition_Encap (q : option string) (r : Condition) : Condition :=
  Some (set_encap q (init r)).

Definition Condition_SetID (i : string) (r : Condition) : Condition :=
  Some (set_id i (init r)).

(** [Condition.Valid]: a nil receiver, an empty keyword, a missing
    operator and a missing expression are errors. *)
Definition Condition_Valid (r : Condition) : option string :=
  match r with
  | None => Some "stackage.Condition instance is nil"
  | Some c =>
      if String.eqb (c_kw c) "" then Some "keyword value is zero"
      else match c_op c with
           | None => Some "operator value is nil"
           | Some _ =>
               match c_ex c with
               | ex_nil => Some "expression value is nil"
               | _ => None
               end
           end
  end.

Definition pad_of (nopad : bool) : string := if nopad then "" else " ".

Definition encapv (q : option string) (v : string) : string :=
  match q with
  | Some e => e ++ v ++ e
  | None => v
  end.

(** The text of a LIST stack: the values, each encapsulated when the
    stack has an encapsulation, joined by the padded delimiter. *)
Definition stack_string (s : stack string) : string :=
  let pad := pad_of (s_nopad s) in
  let sep := if String.eqb (s_delim s) "" then pad
             else pad ++ s_delim s ++ pad in
  let body := strings.Join (map (encapv (s_encap s)) (s_elems s)) sep in
  if s_paren s then "(" ++ pad ++ body ++ pad ++ ")" else body.

Definition operator_text (o : option ComparisonOperator) : string :=
  match o with Some c => cop_String c | None => "" end.

Definition expression_text (q : option string) (e : expression) : string :=
  match e with
  | ex_nil => encapv q ""
  | ex_string v => encapv q v
  | ex_stack s => encapv q (stack_string s)
  end.

(** The text of a condition: keyword, operator and encapsulated value
    separated by the padding, in parentheses when [c_paren] is set.  (The
    package only prints conditions that hold all three parts.) *)
Definition condition_string (c : condition) : string :=
  let pad := pad_of (c_nopad c) in
  let s := c_kw c ++ pad ++ operator_text (c_op c) ++ pad
           ++ expression_text (c_encap c) (c_ex c) in
  if c_paren c then "(" ++ pad ++ s ++ pad ++ ")" else s.

Definition Condition_String (r : Condition) : string :=
  match r with
  | None => ""
  | Some c => condition_string c
  end.

Definition Stack_IsZero {A : Type} (r : Stack A) : bool :=
  match r with None => true | Some _ => false end.

Definition Stack_Len {A : Type} (r : Stack A) : Z :=
  match r with None => 0 | Some s => Z.of_nat (length (s_elems s)) end.

(** [Stack.Index] for the indices 0 to [Len()-1]; any other index has no
    value. *)
Definition Stack_Index {A : Type} (r : Stack A) (idx : Z) : option A :=
  match r with
  | None => None
  | Some s => if idx <? 0 then None else nth_error (s_elems s) (Z.to_nat idx)
  end.

Definition capReached {A : Type} (s : stack A) : bool :=
  (0 <? s_cap s) && (s_cap s <=? Z.of_nat (length (s_elems s))).

Definition append_elem {A : Type} (x : A) (s : stack A) : stack A :=
  mkStack (s_elems s ++ [x]) (s_cap s) (s_readonly s) (s_delim s) (s_nopad s)
    (s_paren s) (s_encap s) (s_id s) (s_category s).

(** [Stack.Push] of one value on a stack that has a push policy: nothing
    happens on a nil, read-only or full stack, nor when the policy
    returns an error; otherwise the value becomes the last element. *)
Definition Stack_Push {A : Type} (policy : A -> option string) (x : A)
  (r : Stack A) : Stack A :=
  match r with
  | None => None
  | Some s =>
      if s_readonly s then Some s
      else if capReached s then Some s
      else match policy x with
           | Some _ => Some s
           | None => Some (append_elem x s)
           end
  end.

Definition stack_set_encap {A : Type} (q : option string) (s : stack A) : stack A :=
  mkStack (s_elems s) (s_cap s) (s_readonly s) (s_delim s) (s_nopad s)
    (s_paren s) q (s_id s) (s_category s).

End stackage.

(** A double quote, the encapsulation character of rule expressions. *)
Definition dquote : string := stackage.dq.

(** ** Values of interface type [any] handed to the package's entry points *)

(** Modelled from the spec: the type [TargetKeyword] of [kw.go] (not
    part of the sources), an enumeration of the nine Target keywords,
    named as [misc.go] names them, whose zero value is the invalid keyword
    (written [TargetKeyword(0x0)] in [misc.go]). *)
Inductive TargetKeyword : Type :=
| badTKW
| Target
| TargetTo
| TargetFrom
| TargetAttr
| TargetCtrl
| TargetScope
| TargetFilter
| TargetAttrFilters
| TargetExtOp.

(** Modelled from the spec: the type [BindKeyword] of [kw.go], an
    enumeration of the eleven Bind keywords, named as [misc.go] names
    them, whose zero value is the invalid keyword ([BindKeyword(0x0)]). *)
Inductive BindKeyword : Type :=
| badBKW
| BindUDN
| BindRDN
| BindGDN
| BindIP
| BindAM
| BindDNS
| BindUAT
| BindGAT
| BindDoW
| BindSSF
| BindToD.

Definition TargetKeyword_eqb (a b : TargetKeyword) : bool :=
  match a, b with
  | badTKW, badTKW | Target, Target | TargetTo, TargetTo
  | TargetFrom, TargetFrom | TargetAttr, TargetAttr
  | TargetCtrl, TargetCtrl | TargetScope, TargetScope
  | TargetFilter, TargetFilter | TargetAttrFilters, TargetAttrFilters
  | TargetExtOp, TargetExtOp => true
  | _, _ => false
  end.

Definition BindKeyword_eqb (a b : BindKeyword) : bool :=
  match a, b with
  | badBKW, badBKW | BindUDN, BindUDN | BindRDN, BindRDN
  | BindGDN, BindGDN | BindIP, BindIP | BindAM, BindAM
  | BindDNS, BindDNS | BindUAT, BindUAT | BindGAT, BindGAT
  | BindDoW, BindDoW | BindSSF, BindSSF | BindToD, BindToD => true
  | _, _ => false
  end.

(** The dynamic types the package's type switches tell apart. *)
Inductive any : Type :=
| any_nil
| any_string (s : string)
| any_int (i : Z)
| any_ComparisonOperator (c : stackage.ComparisonOperator)
| any_TargetKeyword (k : TargetKeyword)
| any_BindKeyword (k : BindKeyword)
| any_other.

(** The [Keyword] interface: nil, a [TargetKeyword] or a [BindKeyword]. *)
Inductive Keyword : Type :=
| Keyword_nil
| Keyword_Target (k : TargetKeyword)
| Keyword_Bind (k : BindKeyword).

(** ** misc.go: comparison operators *)

Definition ComparisonOperator := stackage.ComparisonOperator.

Definition badCop : ComparisonOperator := 0.
Definition Eq : ComparisonOperator := stackage.Eq.
Definition Ne : ComparisonOperator := stackage.Ne.
Definition Lt : ComparisonOperator := stackage.Lt.
Definition Le : ComparisonOperator := stackage.Le.
Definition Gt : ComparisonOperator := stackage.Gt.
Definition Ge : ComparisonOperator := stackage.Ge.

(** The six operators, in the order of their values 1 to 6. *)
Definition operators : list ComparisonOperator := [Eq; Ne; Lt; Le; Gt; Ge].

(** [comparisonOperatorMap], filled by [init]: the key of an operator is
    its [String()] form.  The keys are pairwise distinct, so the order in
    which [matchCOP] ranges over the map does not matter. *)
Definition comparisonOperatorMap : list (string * ComparisonOperator) :=
  [ (stackage.cop_String Eq, Eq);
    (stackage.cop_String Ne, Ne);
    (stackage.cop_String Lt, Lt);
    (stackage.cop_String Le, Le);
    (stackage.cop_String Gt, Gt);
    (stackage.cop_String Ge, Ge) ].

Fixpoint matchCOP_range (op : string) (m : list (string * ComparisonOperator))
  : ComparisonOperator :=
  match m with
  | [] => badCop
  | (k, v) :: r => if String.eqb op k then v else matchCOP_range op r
  end.

Definition matchCOP (op : string) : ComparisonOperator :=
  matchCOP_range op comparisonOperatorMap.

(** [strInSlice]: a case-sensitive membership test. *)
Fixpoint strInSlice (str : string) (slice : list string) : bool :=
  match slice with
  | [] => false
  | x :: r => if String.eqb str x then true else strInSlice str r
  end.

(** Modelled from the spec: [strInSliceFold], the case-insensitive
    counterpart of [strInSlice] that [rangeTargetRuleFuncMap] calls (the
    spec's "matched case-insensitively"); its body is not part of the
    sources, so it follows [strInSlice] with [eq] (strings.EqualFold) in
    place of [==]. *)
Fixpoint strInSliceFold (str : string) (slice : list string) : bool :=
  match slice with
  | [] => false
  | x :: r => if strings.EqualFold str x then true else strInSliceFold str r
  end.

Definition isAlnum (r : ascii) : bool :=
  strings.isLower r || strings.isUpper r || strings.isDigit r.

Fixpoint isIdentifier_body (val : string) : bool :=
  match val with
  | EmptyString => true
  | String ch r =>
      if isAlnum ch then isIdentifier_body r
      else if Ascii.eqb ch ";" || Ascii.eqb ch "-" then isIdentifier_body r
      else false
  end.

Fixpoint last_byte (val : string) (d : ascii) : ascii :=
  match val with
  | EmptyString => d
  | String c r => last_byte r c
  end.

(** [isIdentifier]: begins with a lower-case letter, ends with an
    alphanumeric, and holds only alphanumerics, hyphens and semicolons. *)
Definition isIdentifier (val : string) : bool :=
  match val with
  | EmptyString => false
  | String c0 _ =>
      if negb (strings.isLower c0) then false
      else if negb (isAlnum (last_byte val c0)) then false
      else isIdentifier_body val
  end.

(** ** The keyword registry *)

(** Modelled from the spec: [TargetKeyword.String] of [kw.go], the
    canonical spellings of the nine Target keywords.  The spec's list
    spells the ninth [targetattrfilters]; the comments of [misc.go] spell
    it [targattrfilters], which is used here.  The text of the invalid
    keyword is a placeholder that is none of the spellings. *)
Definition TargetKeyword_String (k : TargetKeyword) : string :=
  match k with
  | badTKW => "<invalid_target_keyword>"
  | Target => "target"
  | TargetTo => "target_to"
  | TargetFrom => "target_from"
  | TargetAttr => "targetattr"
  | TargetCtrl => "targetcontrol"
  | TargetScope => "targetscope"
  | TargetFilter => "targetfilter"
  | TargetAttrFilters => "targattrfilters"
  | TargetExtOp => "extop"
  end.

(** Modelled from the spec: [BindKeyword.String] of [kw.go], the
    canonical spellings of the eleven Bind keywords. *)
Definition BindKeyword_String (k : BindKeyword) : string :=
  match k with
  | badBKW => "<invalid_bind_keyword>"
  | BindUDN => "userdn"
  | BindRDN => "roledn"
  | BindGDN => "groupdn"
  | BindIP => "ip"
  | BindAM => "authmethod"
  | BindDNS => "dns"
  | BindUAT => "userattr"
  | BindGAT => "groupattr"
  | BindDoW => "dayofweek"
  | BindSSF => "ssf"
  | BindToD => "timeofday"
  end.

Definition targetKeywords : list TargetKeyword :=
  [Target; TargetTo; TargetFrom; TargetAttr; TargetCtrl; TargetScope;
   TargetFilter; TargetAttrFilters; TargetExtOp].

Definition bindKeywords : list BindKeyword :=
  [BindUDN; BindRDN; BindGDN; BindIP; BindAM; BindDNS; BindUAT; BindGAT;
   BindDoW; BindSSF; BindToD].

Fixpoint matchTKW_range (kw : string) (l : list TargetKeyword) : TargetKeyword :=
  match l with
  | [] => badTKW
  | k :: r =>
      if strings.EqualFold kw (TargetKeyword_String k) then k
      else matchTKW_range kw r
  end.

(** Modelled from the spec: [matchTKW] of [kw.go] resolves a Target
    keyword from text by a case-insensitive exact match against the
    canonical spellings, and returns the zero keyword otherwise. *)
Definition matchTKW (kw : string) : TargetKeyword :=
  matchTKW_range kw targetKeywords.

Fixpoint matchBKW_range (kw : string) (l : list BindKeyword) : BindKeyword :=
  match l with
  | [] => badBKW
  | k :: r =>
      if strings.EqualFold kw (BindKeyword_String k) then k
      else matchBKW_range kw r
  end.

(** Modelled from the spec: [matchBKW] of [kw.go], the same for the Bind
    keywords. *)
Definition matchBKW (kw : string) : BindKeyword :=
  matchBKW_range kw bindKeywords.

Definition Keyword_String (k : Keyword) : string :=
  match k with
  | Keyword_nil => ""
  | Keyword_Target t => TargetKeyword_String t
  | Keyword_Bind b => BindKeyword_String b
  end.

(** [permittedTargetComparisonOperators] and
    [permittedBindComparisonOperators], filled by [init]: a lookup yields
    the registered operators, or nothing for a key that is not in the
    map. *)
Definition permittedTargetComparisonOperators (key : TargetKeyword)
  : option (list ComparisonOperator) :=
  match key with
  | Target => Some [Eq; Ne]
  | TargetTo => Some [Eq; Ne]
  | TargetFrom => Some [Eq; Ne]
  | TargetCtrl => Some [Eq; Ne]
  | TargetAttr => Some [Eq; Ne]
  | TargetExtOp => Some [Eq; Ne]
  | TargetScope => Some [Eq]
  | TargetFilter => Some [Eq; Ne]
  | TargetAttrFilters => Some [Eq]
  | badTKW => None
  end.

Definition permittedBindComparisonOperators (key : BindKeyword)
  : option (list ComparisonOperator) :=
  match key with
  | BindUDN => Some [Eq; Ne]
  | BindRDN => Some [Eq; Ne]
  | BindGDN => Some [Eq; Ne]
  | BindIP => Some [Eq; Ne]
  | BindAM => Some [Eq; Ne]
  | BindDNS => Some [Eq; Ne]
  | BindUAT => Some [Eq; Ne]
  | BindGAT => Some [Eq; Ne]
  | BindDoW => Some [Eq; Ne]
  | BindSSF => Some [Eq; Ne; Lt; Le; Gt; Ge]
  | BindToD => Some [Eq; Ne; Lt; Le; Gt; Ge]
  | badBKW => None
  end.

(** The loop [for i := 0; i < len(cops); i++ { if cop == cops[i] ... }]. *)
Fixpoint cop_in (cop : ComparisonOperator) (cops : list ComparisonOperator) : bool :=
  match cops with
  | [] => false
  | c :: r => if cop =? c then true else cop_in cop r
  end.

Definition bindKeywordAllowsComparisonOperator
  (key : BindKeyword) (cop : ComparisonOperator) : bool :=
  match permittedBindComparisonOperators key with
  | None => false
  | Some cops => cop_in cop cops
  end.

Definition targetKeywordAllowsComparisonOperator
  (key : TargetKeyword) (cop : ComparisonOperator) : bool :=
  match permittedTargetComparisonOperators key with
  | None => false
  | Some cops => cop_in cop cops
  end.

Definition keywordAllowsComparisonOperator (kw op : any) : bool :=
  let resolved :=
    match op with
    | any_string tv => Some (matchCOP tv)
    | any_ComparisonOperator tv => Some tv
    | _ => None
    end in
  match resolved with
  | None => false
  | Some cop =>
      match kw with
      | any_string tv =>
          if negb (BindKeyword_eqb (matchBKW tv) badBKW)
          then bindKeywordAllowsComparisonOperator (matchBKW tv) cop
          else if negb (TargetKeyword_eqb (matchTKW tv) badTKW)
          then targetKeywordAllowsComparisonOperator (matchTKW tv) cop
          else false
      | any_BindKeyword tv => bindKeywordAllowsComparisonOperator tv cop
      | any_TargetKeyword tv => targetKeywordAllowsComparisonOperator tv cop
      | _ => false
      end
  end.

(** ** target.go: TargetRule *)

Definition MultivalOuterQuotes : Z := 0.
Definition MultivalSliceQuotes : Z := 1.

Definition targetRuleID : string := "target".

(** [TargetRule] is [stackage.Condition] under another name. *)
Definition TargetRule : Type := stackage.Condition.

Definition badTargetRule : TargetRule := None.

(** [castAsCondition] copies the struct and shares its pointer. *)
Definition castAsCondition (x : TargetRule) : stackage.Condition := x.

(** A method with a value receiver writes through [castAsCondition(r)]:
    the write reaches [r] when its pointer is not nil, and is lost with
    the copy otherwise. *)
Definition through (r : TargetRule)
  (f : stackage.Condition -> stackage.Condition) : TargetRule :=
  match r with
  | None => None
  | Some _ => f (castAsCondition r)
  end.

Definition castAsCop (c : ComparisonOperator) : stackage.ComparisonOperator := c.

(** Modelled from the spec: [nilInstanceErr] of [err.go] (not part of the
    sources), the error of a method called on a nil or zero instance; the
    text is the one the examples of [target_test.go] print. *)
Definition nilInstanceErr (typ : string) : option string :=
  Some ("aci." ++ typ ++ " instance is nil").

Definition TargetRule_IsZero (r : TargetRule) : bool :=
  stackage.Condition_IsZero (castAsCondition r).

Definition TargetRule_Keyword (r : TargetRule) : TargetKeyword :=
  matchTKW (stackage.Condition_Keyword (castAsCondition r)).

(** The text [Condition.SetKeyword] stores for a keyword given as a
    string or as a [Keyword]. *)
Definition keyword_text (kw : any) : option string :=
  match kw with
  | any_string s => Some s
  | any_TargetKeyword k => Some (TargetKeyword_String k)
  | any_BindKeyword k => Some (BindKeyword_String k)
  | _ => None
  end.

Definition TargetRule_SetKeyword (kw : any) (r : TargetRule) : TargetRule :=
  match keyword_text kw with
  | Some k => stackage.Condition_SetKeyword k (castAsCondition r)
  | None => Some (stackage.init (castAsCondition r))
  end.

Definition TargetRule_SetOperator (op : any) (r : TargetRule) : TargetRule :=
  if negb (keywordAllowsComparisonOperator
             (any_TargetKeyword (TargetRule_Keyword r)) op)
  then r
  else
    match op with
    | any_string tv =>
        let cop := matchCOP tv in
        if cop =? 0 then r
        else stackage.Condition_SetOperator (castAsCop cop) (castAsCondition r)
    | any_ComparisonOperator tv =>
        let cop := tv in
        if cop =? 0 then r
        else stackage.Condition_SetOperator (castAsCop cop) (castAsCondition r)
    | _ => r
    end.

Definition TargetRule_SetExpression (expr : stackage.expression) (r : TargetRule)
  : TargetRule :=
  stackage.Condition_SetExpression expr
    (stackage.Condition_Encap (Some dquote) (castAsCondition r)).

(** [newTargetRule]; the global [RulePadding] is an argument. *)
Definition newTargetRule (RulePadding : bool) (kw op : any)
  (ex : stackage.expression) : TargetRule :=
  let t := TargetRule_SetKeyword kw badTargetRule in
  let t := TargetRule_SetOperator op t in
  let t := TargetRule_SetExpression ex t in
  through t (fun c =>
    stackage.Condition_NoPadding (negb RulePadding)
      (stackage.Condition_SetID targetRuleID
         (stackage.Condition_Paren true
            (stackage.Condition_Encap (Some dquote) c)))).

Definition TR (RulePadding : bool) (kw op : any) (ex : stackage.expression)
  : TargetRule :=
  newTargetRule RulePadding kw op ex.

(** The operator of a condition as the [any] it is handed over as. *)
Definition operator_any (o : option stackage.ComparisonOperator) : any :=
  match o with
  | None => any_nil
  | Some c => any_ComparisonOperator c
  end.

Definition TargetRule_Valid (r : TargetRule) : option string :=
  if TargetRule_IsZero r then nilInstanceErr "TargetRule"
  else
    let _t := castAsCondition r in
    if negb (keywordAllowsComparisonOperator
               (any_string (stackage.Condition_Keyword _t))
               (operator_any (stackage.Condition_Operator _t)))
    then None
    else stackage.Condition_Valid _t.

(** [TargetRule.String]: parenthesization is switched on before the
    condition is rendered. *)
Definition TargetRule_String (r : TargetRule) : string :=
  if TargetRule_IsZero r then ""
  else
    let tr := castAsCondition r in
    let tr := if negb (stackage.Condition_IsParen tr)
              then stackage.Condition_Paren true tr else tr in
    stackage.Condition_String tr.

(** Modelled from the spec: [setQuoteStyle] of the multi-valued types
    ([AttributeTypes], [ObjectIdentifiers], [TargetDistinguishedNames];
    their files are not part of the sources).  Per-element style quotes
    each value of the stack; outer style leaves the values bare. *)
Definition setQuoteStyle (style : Z) (s : stackage.stack string)
  : stackage.stack string :=
  if style =? MultivalSliceQuotes
  then stackage.stack_set_encap (Some dquote) s
  else stackage.stack_set_encap None s.

Definition AttributeTypes_setQuoteStyle := setQuoteStyle.
Definition ObjectIdentifiers_setQuoteStyle := setQuoteStyle.
Definition TargetDistinguishedNames_setQuoteStyle := setQuoteStyle.

Definition TargetRule_SetQuoteStyle (style : Z) (r : TargetRule) : TargetRule :=
  through r (fun _r =>
    let inverse (c : stackage.Condition) :=
      if style =? MultivalSliceQuotes
      then stackage.Condition_Encap None c
      else stackage.Condition_Encap (Some dquote) c in
    match TargetRule_Keyword r with
    | Target | TargetTo | TargetFrom | TargetExtOp | TargetCtrl | TargetAttr =>
        match stackage.Condition_Expression _r with
        | stackage.ex_stack tv =>
            let tv' :=
              match TargetRule_Keyword r with
              | TargetAttr => AttributeTypes_setQuoteStyle style tv
              | TargetExtOp | TargetCtrl => ObjectIdentifiers_setQuoteStyle style tv
              | _ => TargetDistinguishedNames_setQuoteStyle style tv
              end in
            inverse (Some (stackage.set_ex (stackage.ex_stack tv') (stackage.init _r)))
        | _ => _r
        end
    | _ => inverse _r
    end).

(** ** target.go: TargetRuleMethods *)

(** What a call does: it returns a value, or it panics (here only by
    dereferencing a nil pointer). *)
Inductive outcome (A : Type) : Type :=
| Returns (a : A)
| Panics.

Arguments Returns {A}.
Arguments Panics {A}.

Definition deref {A : Type} (p : option A) : outcome A :=
  match p with
  | Some a => Returns a
  | None => Panics
  end.

Definition bind {A B : Type} (x : outcome A) (f : A -> outcome B) : outcome B :=
  match x with
  | Returns a => f a
  | Panics => Panics
  end.

(** [TargetRuleMethod] is a closure [func() TargetRule]; [None] is the nil
    closure. *)
Definition TargetRuleMethod : Type := option (unit -> TargetRule).

(** [targetRuleFuncMap] is [map[ComparisonOperator]TargetRuleMethod]. *)
Abbreviation targetRuleFuncMap := (gmap Z TargetRuleMethod).

(** [TargetRuleMethods] embeds a pointer to the map. *)
Definition TargetRuleMethods : Type := option targetRuleFuncMap.

Definition newTargetRuleMethods (m : targetRuleFuncMap) : TargetRuleMethods :=
  if decide (size m = 0%nat) then None else Some m.

Definition TargetRuleMethods_IsZero (r : TargetRuleMethods) : bool :=
  match r with None => true | Some _ => false end.

Definition TargetRuleMethods_Len (r : TargetRuleMethods) : Z :=
  match r with None => 0 | Some m => Z.of_nat (size m) end.

(** The three match keys of an operator. *)
Definition forms (k : ComparisonOperator) : list string :=
  [stackage.cop_String k; stackage.cop_Context k; stackage.cop_Description k].

(** The loop of [rangeTargetRuleFuncMap] over the entries of the map in
    the order [entries]: the first entry one of whose forms matches is
    returned, and the zero values when there is none. *)
Fixpoint rangeEntries (candidate : string)
  (entries : list (ComparisonOperator * TargetRuleMethod))
  : ComparisonOperator * TargetRuleMethod :=
  match entries with
  | [] => (badCop, None)
  | (k, v) :: rest =>
      if strInSliceFold candidate (forms k) then (k, v)
      else rangeEntries candidate rest
  end.

(** [rangeTargetRuleFuncMap] dereferences [fm] and ranges over the map.
    Go leaves the order of the iteration open; the model takes the order
    of [map_to_list], and [rangeEntries_order] shows that the result is
    the same in every order. *)
Definition rangeTargetRuleFuncMap (candidate : string) (fm : option targetRuleFuncMap)
  : outcome (ComparisonOperator * TargetRuleMethod) :=
  bind (deref fm) (fun m => Returns (rangeEntries candidate (map_to_list m))).

(** The [int] case of [index]. *)
Definition index_int (tv : Z) (r : TargetRuleMethods)
  : outcome (ComparisonOperator * TargetRuleMethod) :=
  if negb ((1 <=? tv) && (tv <=? 6)) then Returns (badCop, None)
  else
    bind (deref r) (fun m =>
      match m !! tv with
      | Some meth => Returns (tv, meth)
      | None => Returns (badCop, None)
      end).

(** [index]; the case of a [ComparisonOperator] calls [index] again with
    the operator as an [int], which is unfolded here. *)
Definition TargetRuleMethods_index (idx : any) (r : TargetRuleMethods)
  : outcome (ComparisonOperator * TargetRuleMethod) :=
  if TargetRuleMethods_IsZero r then Returns (0, None)
  else
    match idx with
    | any_ComparisonOperator tv =>
        if TargetRuleMethods_IsZero r then Returns (0, None)
        else index_int tv r
    | any_int tv => index_int tv r
    | any_string tv => rangeTargetRuleFuncMap tv r
    | _ => Returns (badCop, None)
    end.

Definition TargetRuleMethods_Index (idx : any) (r : TargetRuleMethods)
  : outcome (ComparisonOperator * TargetRuleMethod) :=
  TargetRuleMethods_index idx r.

(** A method map with the two operators of a Target keyword (and nil
    closures), for examples. *)
Definition methods_Eq_Ne : targetRuleFuncMap :=
  <[Eq := None]> (<[Ne := None]> (∅ : targetRuleFuncMap)).

(** ** target.go: TargetRules *)

(** [TargetRules] is [stackage.Stack] under another name; its push policy
    admits [TargetRule] values only, so these are its elements. *)
Definition TargetRules : Type := stackage.Stack TargetRule.

(** [TRs] without initial values: a LIST stack of capacity nine with an
    empty delimiter; the global [StackPadding] is an argument. *)
Definition TRs (StackPadding : bool) : TargetRules :=
  Some (stackage.mkStack [] 9 false "" (negb StackPadding) false None
          targetRuleID targetRuleID).

Definition TargetRules_IsZero (r : TargetRules) : bool := stackage.Stack_IsZero r.

Definition TargetRules_Len (r : TargetRules) : Z := stackage.Stack_Len r.

Definition TargetRules_Index (r : TargetRules) (idx : Z) : TargetRule :=
  match stackage.Stack_Index r idx with
  | Some y => y
  | None => badTargetRule
  end.

(** The loop [for i := 0; i < r.Len(); i++] of [contains], from index [i]
    with [n] iterations left. *)
Fixpoint contains_loop (r : TargetRules) (candidate : string) (i : Z) (n : nat)
  : bool :=
  match n with
  | O => false
  | S n' =>
      let tr := TargetKeyword_String (TargetRule_Keyword (TargetRules_Index r i)) in
      if strings.EqualFold tr candidate then true
      else contains_loop r candidate (i + 1) n'
  end.

Definition TargetRules_contains (r : TargetRules) (x : any) : bool :=
  if TargetRules_Len r =? 0 then false
  else
    let candidate :=
      match x with
      | any_string tv => Some tv
      | any_TargetKeyword tv =>
          if TargetKeyword_eqb (matchTKW (TargetKeyword_String tv)) badTKW
          then None else Some (TargetKeyword_String tv)
      | any_BindKeyword tv =>
          if TargetKeyword_eqb (matchTKW (BindKeyword_String tv)) badTKW
          then None else Some (BindKeyword_String tv)
      | _ => None
      end in
    match candidate with
    | None => false
    | Some c =>
        if (String.length c =? 0)%nat then false
        else contains_loop r c 0 (Z.to_nat (TargetRules_Len r))
    end.

Definition TargetRules_Contains (r : TargetRules) (x : any) : bool :=
  TargetRules_contains r x.

(** A value handed to the push policy: a [TargetRule] or something of
    another type. *)
Inductive pushed : Type :=
| pushed_TargetRule (tv : TargetRule)
| pushed_other.

(** [pushPolicy]: the error text stands for [pushErrorNilOrZero] and
    [pushErrorBadType], whose wording is not part of the sources. *)
Definition TargetRules_pushPolicy (r : TargetRules) (x : pushed) : option string :=
  match x with
  | pushed_TargetRule tv =>
      let err := if TargetRule_IsZero tv
                 then Some "cannot push nil or zero instance" else None in
      if TargetRules_contains r (any_TargetKeyword (TargetRule_Keyword tv))
      then Some "cannot push nil or zero instance"
      else err
  | pushed_other => Some "push request contains unsupported type"
  end.

(** [Push]: the rules are pushed one by one, each through the policy bound
    to the stack as it is at that moment. *)
Definition TargetRules_Push1 (r : TargetRules) (x : TargetRule) : TargetRules :=
  stackage.Stack_Push
    (fun v => TargetRules_pushPolicy r (pushed_TargetRule v)) x r.

Fixpoint TargetRules_Push (r : TargetRules) (x : list TargetRule) : TargetRules :=
  match x with
  | [] => r
  | x0 :: rest => TargetRules_Push (TargetRules_Push1 r x0) rest
  end.

(** ** Inheritance (inherit.go)

    [inherit.go] is not part of the sources; its tests are
    ([TestInheritance_parse], [TestLevels_bogus]). *)

(** Modelled from the spec: an [Inheritance] holds the levels in the order
    given, the attribute type and the bind type or value; the zero value
    holds nothing. *)
Record inheritance : Type := mkInheritance {
  inh_levels : list Z;
  inh_attr : string;
  inh_bind : string
}.

Definition Inheritance : Type := option inheritance.

(** Modelled from the spec: the fixed text [String] gives for a zero or
    invalid [Inheritance] (the constant [badInheritance] of the tests; its
    value is not part of the sources and follows the pattern of [badPB]). *)
Definition badInheritance : string := "<invalid_inheritance>".

Definition level_ok (n : Z) : bool := (0 <=? n) && (n <=? 9).

(** Modelled from the spec: an [Inheritance] is valid when it has at least
    one level, every level lies in 0..9, the attribute type is an
    identifier and the bind type or value is not empty. *)
Definition Inheritance_valid (i : inheritance) : bool :=
  negb (Nat.eqb (length (inh_levels i)) 0)
  && forallb level_ok (inh_levels i)
  && isIdentifier (inh_attr i)
  && negb (String.eqb (inh_bind i) "").

(** Modelled from the spec: [Inheritance.String] renders
    [parent[<levels>].<attributeType>#<bindType>], and the sentinel for a
    zero or invalid value. *)
Definition Inheritance_String (r : Inheritance) : string :=
  match r with
  | None => badInheritance
  | Some i =>
      if Inheritance_valid i then
        "parent[" ++ strings.Join (map strings.Itoa (inh_levels i)) ","
        ++ "]." ++ inh_attr i ++ "#" ++ inh_bind i
      else badInheritance
  end.

(** Modelled from the spec: step 3 of the parser, every token of the
    bracket interior is an integer in 0..9. *)
Fixpoint parseLevels (tokens : list string) : option (list Z) :=
  match tokens with
  | [] => Some []
  | t :: rest =>
      match strings.Atoi t with
      | Some n =>
          if level_ok n then
            match parseLevels rest with
            | Some l => Some (n :: l)
            | None => None
            end
          else None
      | None => None
      end
  end.

(** Modelled from the spec: [parseInheritance], steps 1 to 5 of the spec's
    algorithm.  The result is the parsed value and a nil error, or the
    zero value and an error. *)
Definition parseInheritance (raw : string) : Inheritance * option string :=
  if String.eqb raw "" then (None, Some "empty inheritance expression")
  else
    match strings.CutPrefix raw "parent[" with
    | None => (None, Some "missing parent[ prefix")
    | Some rest =>
        match strings.Cut "]" rest with
        | None => (None, Some "missing closing bracket")
        | Some (interior, after) =>
            if String.eqb interior "" then (None, Some "no levels")
            else
              match parseLevels (strings.Split "," interior) with
              | None => (None, Some "bad level")
              | Some levels =>
                  match after with
                  | String "." remainder =>
                      match strings.Cut "#" remainder with
                      | None => (None, Some "missing bind type")
                      | Some (attr, bind) =>
                          if negb (isIdentifier attr)
                          then (None, Some "bad attribute type")
                          else if String.eqb bind ""
                          then (None, Some "empty bind type")
                          else (Some (mkInheritance levels attr bind), None)
                      end
                  | _ => (None, Some "missing attribute type")
                  end
              end
        end
    end.

(** The inheritance grammar of the spec, as text:
    [inheritance := "parent[" int {"," int} "]." identifier "#" (bindtype | dn)],
    with every [int] the numeral of an integer in 0..9. *)
Definition numeral (n : Z) : string := String (strings.digit_char n) EmptyString.

Fixpoint levels_text (first : Z) (rest : list Z) : string :=
  match rest with
  | [] => numeral first
  | n :: r => numeral first ++ "," ++ levels_text n r
  end.

Definition inheritance_text (first : Z) (rest : list Z) (attr bind : string)
  : string :=
  "parent[" ++ levels_text first rest ++ "]." ++ attr ++ "#" ++ bind.

Fixpoint distinct (l : list Z) : bool :=
  match l with
  | [] => true
  | x :: r => negb (existsb (Z.eqb x) r) && distinct r
  end.

(** [raw] is a sentence of the grammar: a non-empty list of distinct
    levels in 0..9, an identifier, and a non-empty bind type or value. *)
Definition inheritance_grammar (raw : string) : Prop :=
  exists first rest attr bind,
    forallb level_ok (first :: rest) = true /\
    distinct (first :: rest) = true /\
    isIdentifier attr = true /\
    bind <> "" /\
    raw = inheritance_text first rest attr bind.

(** ** SecurityStrengthFactor (ssf.go)

    [ssf.go] is not part of the sources; its tests and examples are
    ([TestSecurityStrengthFactor_codecov] and the examples after it). *)

(** Modelled from the spec: a factor is an integer in 0..256; the zero
    value is 0. *)
Definition SecurityStrengthFactor : Type := Z.

(** Modelled from the spec: [String] is the decimal numeral of the
    factor. *)
Definition SecurityStrengthFactor_String (r : SecurityStrengthFactor) : string :=
  strings.Itoa r.

(** Modelled from the spec: the words [none] and [off] stand for 0, [max]
    and [full] for 256, in any case; a numeral stands for its value; any
    other word stands for 0 (the test sets [fart] on a factor that holds
    256 and expects the text 0). *)
Definition stringToIntSSF (w : string) : Z :=
  if strings.EqualFold w "none" || strings.EqualFold w "off" then 0
  else if strings.EqualFold w "max" || strings.EqualFold w "full" then 256
  else match strings.Atoi w with
       | Some i => i
       | None => 0
       end.

(** Modelled from the spec: [Set] takes an integer or a word; a value
    outside 0..256 is rejected and the factor is left as it was. *)
Definition SecurityStrengthFactor_Set (factor : any) (r : SecurityStrengthFactor)
  : SecurityStrengthFactor :=
  let set_int (i : Z) := if (0 <=? i) && (i <=? 256) then i else r in
  match factor with
  | any_int i => set_int i
  | any_string w => set_int (stringToIntSSF w)
  | _ => r
  end.

(** A word [Set] does not recognize: none of the four aliases, in any
    case, and not a numeral. *)
Definition unrecognized_word (w : string) : Prop :=
  strings.EqualFold w "none" = false /\
  strings.EqualFold w "off" = false /\
  strings.EqualFold w "max" = false /\
  strings.EqualFold w "full" = false /\
  strings.Atoi w = None.

(** ** AttributeTypes (attr.go), as far as the quotation styles need it *)

(** Modelled from the spec: [TAs] followed by [Push] of attribute types
    gives a LIST stack of their names with the delimiter [||]; the global
    [StackPadding] is an argument.  ([attr.go] is not part of the
    sources.) *)
Definition TAs (StackPadding : bool) (names : list string) : stackage.stack string :=
  stackage.mkStack names 0 false "||" (negb StackPadding) false None
    targetRuleID (TargetKeyword_String TargetAttr).

(** Modelled from the spec: [AttributeTypes.Eq] is the equality condition
    of keyword [targetattr] over the stack. *)
Definition AttributeTypes_Eq (RulePadding : bool) (s : stackage.stack string)
  : TargetRule :=
  newTargetRule RulePadding (any_TargetKeyword TargetAttr)
    (any_ComparisonOperator Eq) (stackage.ex_stack s).

(** ** Predicates used to state the properties *)

(** [op] denotes the operator [c]: it is [c] itself, or the symbol of one
    of the six operators. *)
Inductive resolves : any -> ComparisonOperator -> Prop :=
| resolves_cop : forall c, resolves (any_ComparisonOperator c) c
| resolves_symbol : forall c,
    In c operators -> resolves (any_string (stackage.cop_String c)) c.

(** [c] is registered for the Target keyword [k]. *)
Definition permitted (k : TargetKeyword) (c : ComparisonOperator) : Prop :=
  exists cops, permittedTargetComparisonOperators k = Some cops /\ In c cops.

(** The dynamic types [TargetRuleMethods.Index] has no case for. *)
Definition other_index_type (idx : any) : Prop :=
  match idx with
  | any_int _ | any_ComparisonOperator _ | any_string _ => False
  | _ => True
  end.

(** The keys of a method map are operators: the maps the package builds
    hold entries for (some of) the six operators only. *)
Definition keys_are_operators (r : TargetRuleMethods) : Prop :=
  forall m k, r = Some m -> m !! k <> None -> In k operators.

(** [candidate] matches no form of any of the six operators. *)
Definition matches_no_form (candidate : string) : Prop :=
  forall k, In k operators -> strInSliceFold candidate (forms k) = false.

(** The inputs for which [Index] has nothing to return. *)
Inductive unresolvable (r : TargetRuleMethods) : any -> Prop :=
| unresolvable_zero : forall idx, r = None -> unresolvable r idx
| unresolvable_int : forall i, ~ (1 <= i <= 6) -> unresolvable r (any_int i)
| unresolvable_cop : forall c,
    ~ (1 <= c <= 6) -> unresolvable r (any_ComparisonOperator c)
| unresolvable_string : forall s,
    matches_no_form s -> keys_are_operators r ->
    unresolvable r (any_string s)
| unresolvable_other : forall idx, other_index_type idx -> unresolvable r idx.

(** [parseInheritance] rejects [raw]: it returns the zero value and an
    error, and the zero value renders the sentinel. *)
Definition rejects (raw : string) : Prop :=
  fst (parseInheritance raw) = None
  /\ snd (parseInheritance raw) <> None
  /\ Inheritance_String (fst (parseInheritance raw)) = badInheritance.

(** Every byte of [s] satisfies [P]. *)
Fixpoint string_forall (P : ascii -> bool) (s : string) : bool :=
  match s with
  | EmptyString => true
  | String c r => P c && string_forall P r
  end.

Definition is_not (c : ascii) (x : ascii) : bool := negb (Ascii.eqb x c).

(** ** Further code of the package *)

(** Go's [int] on a 64-bit platform: the two's-complement value of an
    integer, wrapped into -2^63 .. 2^63-1. *)
Definition wrap64 (z : Z) : Z := (z + 2 ^ 63) mod 2 ^ 64 - 2 ^ 63.

Definition int_range (x : Z) : Prop := - 2 ^ 63 <= x < 2 ^ 63.

(** [isPowerOfTwo]: [x&(x-1) == 0]; the subtraction wraps around. *)
Definition isPowerOfTwo (x : Z) : bool := Z.land x (wrap64 (x - 1)) =? 0.

(** [TargetRuleMethods.Valid]: the method registered for [Eq] is looked
    up and called; calling a nil closure panics. *)
Definition TargetRuleMethods_Valid (r : TargetRuleMethods)
  : outcome (option string) :=
  if TargetRuleMethods_IsZero r
  then Returns (nilInstanceErr "TargetRuleMethods")
  else
    bind (TargetRuleMethods_Index (any_ComparisonOperator Eq) r)
      (fun res =>
         match snd res with
         | None => Panics
         | Some meth => Returns (TargetRule_Valid (meth tt))
         end).

(** [TRs] with initial values of any type: each is pushed through the
    policy of the stack as it is at that moment. *)
Fixpoint push_values (r : TargetRules) (x : list pushed) : TargetRules :=
  match x with
  | [] => r
  | v :: rest =>
      push_values
        (match r with
         | None => None
         | Some s =>
             if stackage.s_readonly s then Some s
             else if stackage.capReached s then Some s
             else match TargetRules_pushPolicy r v, v with
                  | None, pushed_TargetRule tv => Some (stackage.append_elem tv s)
                  | _, _ => Some s
                  end
         end) rest
  end.

Definition TRs_with (StackPadding : bool) (x : list pushed) : TargetRules :=
  push_values (TRs StackPadding) x.

(** The elements of a collection, in order. *)
Definition elements (r : TargetRules) : list TargetRule :=
  match r with
  | None => []
  | Some s => stackage.s_elems s
  end.

(** The Target keywords (the zero keyword left out) the elements bear. *)
Definition keywords_of (l : list TargetRule) : list TargetKeyword :=
  List.filter (fun k => negb (TargetKeyword_eqb k badTKW))
    (map TargetRule_Keyword l).

(** A byte an identifier may hold. *)
Definition identifier_byte (c : ascii) : bool :=
  isAlnum c || (Ascii.eqb c ";" || Ascii.eqb c "-").

(** The values an expression holds. *)
Definition expression_values (e : stackage.expression) : list string :=
  match e with
  | stackage.ex_nil => []
  | stackage.ex_string v => [v]
  | stackage.ex_stack s => stackage.s_elems s
  end.

(** The condition [SetQuoteStyle] leaves behind the pointer of a rule
    whose keyword resolves to [k]. *)
Definition restyled (style : Z) (k : TargetKeyword) (cond : stackage.condition)
  : stackage.condition :=
  let q := if style =? MultivalSliceQuotes then None else Some dquote in
  match k with
  | Target | TargetTo | TargetFrom | TargetExtOp | TargetCtrl | TargetAttr =>
      match stackage.c_ex cond with
      | stackage.ex_stack tv =>
          stackage.set_encap q
            (stackage.set_ex (stackage.ex_stack (setQuoteStyle style tv)) cond)
      | _ => cond
      end
  | _ => stackage.set_encap q cond
  end.

(** The rules among values of any type. *)
Fixpoint rules_of (x : list pushed) : list TargetRule :=
  match x with
  | [] => []
  | pushed_TargetRule tv :: rest => tv :: rules_of rest
  | pushed_other :: rest => rules_of rest
  end.

(** What every collection built by [TRs] and [Push] satisfies: capacity
    nine, no zero rule, and no Target keyword borne twice. *)
Definition TargetRules_inv (r : TargetRules) : Prop :=
  exists s,
    r = Some s
    /\ stackage.s_cap s = 9
    /\ (length (stackage.s_elems s) <= 9)%nat
    /\ List.Forall (fun e => TargetRule_IsZero e = false) (stackage.s_elems s)
    /\ List.NoDup (keywords_of (stackage.s_elems s)).

(** ** pb.go: PermissionBindRule and PermissionBindRules *)

(** [Permission] ([perm.go], not part of the sources) as [pb.go] reads
    it: the results of its methods [Valid], [IsZero] and [String]. *)
Record Permission : Type := mkPermission {
  perm_Valid : option string;
  perm_IsZero : bool;
  perm_String : string
}.

(** A value of the interface [BindContext] ([misc.go]) as [pb.go] reads
    it: the results of the read-only methods [Valid], [Len], [ID] and
    [String] of the [BindRule] or [BindRules] behind it. *)
Record bindContext : Type := mkBindContext {
  bc_Valid : option string;
  bc_Len : Z;
  bc_ID : string;
  bc_String : string
}.

(** The interface value itself, which may be nil. *)
Definition BindContext : Type := option bindContext.

Record PermissionBindRule : Type := mkPermissionBindRule {
  pbr_P : Permission;
  pbr_B : BindContext
}.

Definition badPB : string := "<invalid_pbrule>".
Definition pbrRuleID : string := "pbr".
Definition pbrsRuleID : string := "pbrs".

(** A value handed to [PermissionBindRules]: a string, a
    [PermissionBindRule], or something of another type. *)
Inductive pb_value : Type :=
| pbv_string (s : string)
| pbv_rule (r : PermissionBindRule)
| pbv_other.

Section PermissionBindRule_model.

(** The constant [bindRuleID] and the zero value of [Permission] are
    declared in files that are not part of the sources. *)
Variable bindRuleID : string.
Variable zeroPermission : Permission.

(** The zero value of the struct. *)
Definition badPermissionBindRule : PermissionBindRule :=
  mkPermissionBindRule zeroPermission None.

(** [valid], on a pointer that may be nil; a method called on the nil
    interface [r.B] panics.  The last error text stands for
    [badPTBRuleKeywordErr], which is declared outside the sources. *)
Definition PermissionBindRule_valid (r : option PermissionBindRule)
  : outcome (option string) :=
  match r with
  | None => Returns (nilInstanceErr "PermissionBindRule")
  | Some v =>
      match perm_Valid (pbr_P v) with
      | Some err => Returns (Some err)
      | None =>
          bind (deref (pbr_B v)) (fun B =>
            match bc_Valid B with
            | Some err => Returns (Some err)
            | None =>
                if bc_Len B =? 0 then Returns (nilInstanceErr "BindContext")
                else if perm_IsZero (pbr_P v)
                then Returns (nilInstanceErr "Permission")
                else if negb (String.eqb (bc_ID B) bindRuleID)
                then Returns (Some "bad bind rule keyword")
                else Returns None
            end)
      end
  end.

Definition PermissionBindRule_Valid (r : option PermissionBindRule)
  : outcome (option string) :=
  PermissionBindRule_valid r.

Definition PermissionBindRule_IsZero (r : option PermissionBindRule) : bool :=
  match r with
  | None => true
  | Some v =>
      perm_IsZero (pbr_P v)
      && match pbr_B v with None => true | Some _ => false end
  end.

Definition PermissionBindRule_Kind (r : PermissionBindRule) : string := pbrRuleID.

(** [PBR]: the pair when it is valid, the zero value otherwise. *)
Definition PBR (P : Permission) (B : BindContext) : outcome PermissionBindRule :=
  let _r := mkPermissionBindRule P B in
  bind (PermissionBindRule_Valid (Some _r)) (fun err =>
    match err with
    | None => Returns _r
    | Some _ => Returns badPermissionBindRule
    end).

(** [String]: [sprintf("%s %s;", r.P, r.B)] for a valid pair. *)
Definition PermissionBindRule_String (r : PermissionBindRule) : outcome string :=
  bind (PermissionBindRule_valid (Some r)) (fun err =>
    match err with
    | None =>
        bind (deref (pbr_B r)) (fun B =>
          Returns (perm_String (pbr_P r) ++ " " ++ bc_String B ++ ";"))
    | Some _ => Returns badPB
    end).

(** [PermissionBindRules] is [stackage.Stack] under another name; its
    push policy admits [PermissionBindRule] values only. *)
Definition PermissionBindRules : Type := stackage.Stack PermissionBindRule.

(** [PBRs] without initial values: a LIST stack without capacity whose
    delimiter is a space; the global [StackPadding] is an argument. *)
Definition PBRs (StackPadding : bool) : PermissionBindRules :=
  Some (stackage.mkStack [] 0 false " " (negb StackPadding) false None
          pbrsRuleID pbrsRuleID).

Definition PermissionBindRules_IsZero (r : PermissionBindRules) : bool :=
  stackage.Stack_IsZero r.

Definition PermissionBindRules_Len (r : PermissionBindRules) : Z :=
  stackage.Stack_Len r.

Definition PermissionBindRules_Kind (r : PermissionBindRules) : string :=
  pbrsRuleID.

Definition PermissionBindRules_Index (r : PermissionBindRules) (idx : Z)
  : PermissionBindRule :=
  match stackage.Stack_Index r idx with
  | Some x => x
  | None => badPermissionBindRule
  end.

(** The loop of [contains], from index [i] with [n] iterations left. *)
Fixpoint pbr_contains_loop (r : PermissionBindRules) (candidate : string)
  (i : Z) (n : nat) : outcome bool :=
  match n with
  | O => Returns false
  | S n' =>
      bind (PermissionBindRule_String (PermissionBindRules_Index r i))
        (fun text =>
           if strings.EqualFold text candidate then Returns true
           else pbr_contains_loop r candidate (i + 1) n')
  end.

Definition PermissionBindRules_contains (r : PermissionBindRules) (x : pb_value)
  : outcome bool :=
  if PermissionBindRules_Len r =? 0 then Returns false
  else
    match x with
    | pbv_other => Returns false
    | _ =>
        bind (match x with
              | pbv_rule tv => PermissionBindRule_String tv
              | pbv_string tv => Returns tv
              | pbv_other => Returns ""
              end)
          (fun candidate =>
             if (String.length candidate =? 0)%nat then Returns false
             else pbr_contains_loop r candidate 0
                    (Z.to_nat (PermissionBindRules_Len r)))
    end.


(** [pushPolicy]; the error texts stand for [pushErrorNotUnique],
    [pushErrorNilOrZero] and [pushErrorBadType]. *)
Definition PermissionBindRules_pushPolicy (r : PermissionBindRules) (x : pb_value)
  : outcome (option string) :=
  bind (PermissionBindRules_contains r x) (fun found =>
    if found then Returns (Some "cannot push non-unique or duplicate value")
    else
      match x with
      | pbv_rule tv =>
          bind (PermissionBindRule_Valid (Some tv)) (fun err =>
            match err with
            | Some _ => Returns (Some "cannot push nil or zero instance")
            | None => Returns None
            end)
      | _ => Returns (Some "push request contains unsupported type")
      end).

(** [Push] of one value: only a [PermissionBindRule] is handed to the
    stack, which consults the policy. *)
Definition PermissionBindRules_Push1 (r : PermissionBindRules) (x : pb_value)
  : outcome PermissionBindRules :=
  match x with
  | pbv_rule tv =>
      match r with
      | None => Returns None
      | Some s =>
          if stackage.s_readonly s then Returns r
          else if stackage.capReached s then Returns r
          else
            bind (PermissionBindRules_pushPolicy r x) (fun err =>
              match err with
              | Some _ => Returns r
              | None => Returns (Some (stackage.append_elem tv s))
              end)
      end
  | _ => Returns r
  end.

Fixpoint PermissionBindRules_Push (r : PermissionBindRules) (x : list pb_value)
  : outcome PermissionBindRules :=
  match x with
  | [] => Returns r
  | x0 :: rest =>
      bind (PermissionBindRules_Push1 r x0) (fun r' =>
        PermissionBindRules_Push r' rest)
  end.

(** The text of a valid pair. *)
Definition pbr_text (r : PermissionBindRule) : string :=
  perm_String (pbr_P r) ++ " "
  ++ match pbr_B r with Some B => bc_String B | None => "" end ++ ";".

(** A pair [valid] accepts: both parts are valid, the bind rule is not
    empty and bears the bind identifier, the permission is not zero. *)
Definition pbr_ok (r : PermissionBindRule) : Prop :=
  perm_Valid (pbr_P r) = None
  /\ perm_IsZero (pbr_P r) = false
  /\ exists B, pbr_B r = Some B
               /\ bc_Valid B = None
               /\ bc_Len B <> 0
               /\ bc_ID B = bindRuleID.

(** No two elements of [l] have the same text, up to case. *)
Fixpoint texts_distinct (l : list PermissionBindRule) : Prop :=
  match l with
  | [] => True
  | x :: rest =>
      (forall y, In y rest ->
         strings.EqualFold (pbr_text y) (pbr_text x) = false)
      /\ texts_distinct rest
  end.

Definition pbr_elements (r : PermissionBindRules) : list PermissionBindRule :=
  match r with
  | Some s => stackage.s_elems s
  | None => []
  end.

(** What [PBRs] establishes and [Push] keeps: a writable stack without
    capacity whose elements are pairs [valid] accepts, no two of them
    with the same text. *)
Definition PermissionBindRules_inv (r : PermissionBindRules) : Prop :=
  exists s, r = Some s
            /\ stackage.s_readonly s = false
            /\ stackage.s_cap s = 0
            /\ List.Forall pbr_ok (stackage.s_elems s)
            /\ texts_distinct (stackage.s_elems s).

(** The condition under which the push policy lets [tv] in. *)
Definition pbr_admitted (r : PermissionBindRules) (tv : PermissionBindRule) : Prop :=
  pbr_ok tv
  /\ forall e, In e (pbr_elements r) ->
               strings.EqualFold (pbr_text e) (pbr_text tv) = false.

End PermissionBindRule_model.

(** * Properties *)

(** ** Operators and the keyword registry *)

Lemma cop_in_In (c : ComparisonOperator) (l : list ComparisonOperator) :
  cop_in c l = true <-> In c l.
Proof.
  induction l as [|x l IH]; simpl.
  - split; [discriminate | tauto].
  - destruct (Z.eqb_spec c x) as [->|Hne].
    + split; auto.
    + rewrite IH. split; [auto | intros [E|H]; [congruence | exact H]].
Qed.

Lemma permitted_iff (k : TargetKeyword) (c : ComparisonOperator) :
  targetKeywordAllowsComparisonOperator k c = true <-> permitted k c.
Proof.
  unfold targetKeywordAllowsComparisonOperator, permitted.
  destruct (permittedTargetComparisonOperators k) as [cops|].
  - rewrite cop_in_In. split.
    + intros H. exists cops. auto.
    + intros [cops' [E H]]. inversion E. subst. exact H.
  - split; [discriminate | intros [cops' [E _]]; discriminate].
Qed.

Lemma permitted_operator (k : TargetKeyword) (c : ComparisonOperator) :
  permitted k c -> In c operators.
Proof.
  intros [cops [E H]].
  destruct k; simpl in E; inversion E; subst; simpl in H; simpl; tauto.
Qed.

(** [matchCOP] returns the invalid operator, or the operator whose symbol
    the text is. *)
Lemma matchCOP_spec (s : string) :
  matchCOP s = badCop \/
  (In (matchCOP s) operators /\ stackage.cop_String (matchCOP s) = s).
Proof.
  unfold matchCOP, comparisonOperatorMap. simpl.
  repeat match goal with
         | |- context [String.eqb s ?k] =>
             destruct (String.eqb_spec s k) as [->|_];
             [right; split; [simpl; tauto | reflexivity] | ]
         end.
  left. reflexivity.
Qed.

Lemma matchCOP_symbol (c : ComparisonOperator) :
  In c operators -> matchCOP (stackage.cop_String c) = c.
Proof.
  simpl. intros H.
  repeat (destruct H as [<-|H]; [reflexivity|]). destruct H.
Qed.

(** SetOperator leaves the rule as it is when the keyword does not allow
    the operator. *)
Lemma SetOperator_not_allowed (r : TargetRule) (op : any) :
  keywordAllowsComparisonOperator
    (any_TargetKeyword (TargetRule_Keyword r)) op = false ->
  TargetRule_SetOperator op r = r.
Proof.
  intros H. unfold TargetRule_SetOperator. rewrite H. reflexivity.
Qed.

Lemma allowed_resolves (k : TargetKeyword) (op : any) :
  keywordAllowsComparisonOperator (any_TargetKeyword k) op = true ->
  exists c, resolves op c /\ permitted k c.
Proof.
  destruct op as [|s|i|c|t|b|]; simpl; try discriminate.
  - intros H. apply permitted_iff in H.
    destruct (matchCOP_spec s) as [E|[Hin Hs]].
    + rewrite E in H. apply permitted_operator in H.
      simpl in H. unfold badCop, Eq, Ne, Lt, Le, Gt, Ge in H.
      unfold stackage.Eq, stackage.Ne, stackage.Lt, stackage.Le,
        stackage.Gt, stackage.Ge in H.
      repeat (destruct H as [H|H]; [discriminate|]). destruct H.
    + exists (matchCOP s). split; [|exact H].
      rewrite <- Hs at 1. apply resolves_symbol. exact Hin.
  - intros H. apply permitted_iff in H.
    exists c. split; [apply resolves_cop | exact H].
Qed.

(** C7. For every TargetRule and every operator value that is not legal
    for the rule's current keyword -- an operator the keyword does not
    register, a symbol that is none of the six, or a value of another
    type -- SetOperator returns the receiver unchanged: keyword, operator,
    expression and all other fields keep their values.  (SetOperator
    returns nothing but the receiver, so no error is raised.) *)
Theorem TargetRule_SetOperator_frame (r : TargetRule) (op : any) :
  (forall c, resolves op c -> ~ permitted (TargetRule_Keyword r) c) ->
  TargetRule_SetOperator op r = r.
Proof.
  intros Hillegal. apply SetOperator_not_allowed.
  destruct (keywordAllowsComparisonOperator
              (any_TargetKeyword (TargetRule_Keyword r)) op) eqn:E;
    [|reflexivity].
  apply allowed_resolves in E. destruct E as [c [Hres Hperm]].
  exfalso. exact (Hillegal c Hres Hperm).
Qed.

Lemma TargetRule_SetOperator_frame_witness :
  let r := TR true (any_TargetKeyword TargetScope) (any_ComparisonOperator Eq)
             (stackage.ex_string "onelevel") in
  TargetRule_SetOperator (any_ComparisonOperator Ne) r = r
  /\ TargetRule_SetOperator (any_string "<>") r = r
  /\ TargetRule_SetOperator (any_int 1) r = r.
Proof.
  cbv zeta. split; [|split].
  - apply (TargetRule_SetOperator_frame _ (any_ComparisonOperator Ne)).
    intros c H. inversion H; subst.
    intros [cops [E Hin]]. vm_compute in E. inversion E; subst.
    simpl in Hin. destruct Hin as [Hin|[]]. discriminate.
  - apply (TargetRule_SetOperator_frame _ (any_string "<>")).
    intros c H. inversion H as [|c' Hin Hs]; subst.
    simpl in Hin.
    repeat (destruct Hin as [<-|Hin]; [discriminate|]). destruct Hin.
  - apply (TargetRule_SetOperator_frame _ (any_int 1)).
    intros c H. inversion H.
Defined.

(** A rule whose operator its keyword does not allow -- an unset operator
    included -- passes [Valid] with a nil error. *)
Lemma TargetRule_Valid_not_allowed (r : TargetRule) :
  TargetRule_IsZero r = false ->
  keywordAllowsComparisonOperator
    (any_string (stackage.Condition_Keyword r))
    (operator_any (stackage.Condition_Operator r)) = false ->
  TargetRule_Valid r = None.
Proof.
  intros Hz Hk. unfold TargetRule_Valid, castAsCondition.
  rewrite Hz, Hk. reflexivity.
Qed.

(** C1. The code at the failing inputs: the rule TR(TargetScope, Ne,
    onelevel), and a rule that holds keyword targetscope and operator Ne,
    both pass Valid with a nil error, although Ne is not registered for
    targetscope. *)
Theorem TargetRule_Valid_targetscope_Ne :
  targetKeywordAllowsComparisonOperator TargetScope Ne = false
  /\ TargetRule_Valid
       (TR true (any_TargetKeyword TargetScope) (any_ComparisonOperator Ne)
          (stackage.ex_string "onelevel")) = None
  /\ TargetRule_Valid
       (Some (stackage.mkCondition "targetscope" (Some Ne)
                (stackage.ex_string "onelevel") true false (Some dquote)
                targetRuleID "")) = None.
Proof. repeat split. Qed.

(** ** Resolving an operator from text *)

Lemma EqualFold_true (s t : string) :
  strings.EqualFold s t = true <-> strings.ToLower s = strings.ToLower t.
Proof. unfold strings.EqualFold. apply String.eqb_eq. Qed.

Lemma EqualFold_refl (s : string) : strings.EqualFold s s = true.
Proof. apply EqualFold_true. reflexivity. Qed.

(** A value is one of the six operators, or it has no form. *)
Lemma cop_cases (k : ComparisonOperator) :
  In k operators \/ forms k = [""; ""; ""].
Proof.
  destruct k as [|p|p]; [right; reflexivity | | right; reflexivity].
  destruct p as [[[p|p|]|[p|p|]|]|[[p|p|]|[p|p|]|]|];
    try (right; reflexivity); left; simpl;
    unfold Eq, Ne, Lt, Le, Gt, Ge, stackage.Eq, stackage.Ne, stackage.Lt,
      stackage.Le, stackage.Gt, stackage.Ge; tauto.
Qed.

Ltac each_operator H :=
  simpl in H;
  repeat (destruct H as [<-|H]; [|]); [ .. | destruct H].

(** The forms of two different operators never match the same text. *)
Lemma forms_unique (c : ComparisonOperator) (form candidate : string) :
  In c operators -> In form (forms c) ->
  strings.EqualFold candidate form = true ->
  forall k, k <> c -> strInSliceFold candidate (forms k) = false.
Proof.
  intros Hc Hform Hfold k Hk.
  apply EqualFold_true in Hfold.
  assert (Hsl : forall l, strInSliceFold candidate l
                     = existsb (fun x => String.eqb (strings.ToLower form)
                                           (strings.ToLower x)) l).
  { induction l as [|x l IH]; simpl; [reflexivity|].
    unfold strings.EqualFold. rewrite Hfold, IH.
    destruct (String.eqb _ _); reflexivity. }
  rewrite Hsl. clear Hsl Hfold candidate.
  destruct (cop_cases k) as [Hin|Hnone].
  - each_operator Hc; each_operator Hform; each_operator Hin;
      first [ exfalso; apply Hk; reflexivity | reflexivity ].
  - rewrite Hnone.
    each_operator Hc; each_operator Hform; reflexivity.
Qed.

Lemma rangeEntries_no_match (candidate : string)
  (entries : list (ComparisonOperator * TargetRuleMethod)) :
  (forall k, In k (map fst entries) -> strInSliceFold candidate (forms k) = false) ->
  rangeEntries candidate entries = (badCop, None).
Proof.
  induction entries as [|[k v] rest IH]; simpl; intros H; [reflexivity|].
  rewrite (H k) by auto. apply IH. intros k' Hk'. apply H. auto.
Qed.

Lemma rangeEntries_found (candidate : string) (c : ComparisonOperator)
  (meth : TargetRuleMethod)
  (entries : list (ComparisonOperator * TargetRuleMethod)) :
  List.NoDup (map fst entries) ->
  In (c, meth) entries ->
  strInSliceFold candidate (forms c) = true ->
  (forall k, k <> c -> strInSliceFold candidate (forms k) = false) ->
  rangeEntries candidate entries = (c, meth).
Proof.
  intros Hnd Hin Hmatch Hother.
  induction entries as [|[k v] rest IH]; simpl in *; [destruct Hin|].
  inversion Hnd as [|? ? Hnotin Hnd']; subst.
  destruct (Z.eq_dec k c) as [->|Hne].
  - rewrite Hmatch. destruct Hin as [E|Hin]; [congruence|].
    exfalso. apply Hnotin. change c with (fst (c, meth)). apply in_map. exact Hin.
  - rewrite (Hother k Hne). destruct Hin as [E|Hin]; [congruence|].
    apply IH; assumption.
Qed.

Lemma strInSliceFold_In (candidate form : string) (l : list string) :
  In form l -> strings.EqualFold candidate form = true ->
  strInSliceFold candidate l = true.
Proof.
  induction l as [|x l IH]; simpl; [tauto|].
  intros [->|Hin] H.
  - rewrite H. reflexivity.
  - destruct (strings.EqualFold candidate x); [reflexivity | auto].
Qed.

(** The entries of a map in any order: the keys are pairwise distinct,
    and an entry is listed exactly when the map holds it. *)
Lemma entries_of_map (fm : targetRuleFuncMap)
  (entries : list (ComparisonOperator * TargetRuleMethod)) :
  Permutation entries (map_to_list fm) ->
  List.NoDup (map fst entries) /\
  (forall c meth, In (c, meth) entries <-> fm !! c = Some meth).
Proof.
  intros Hperm. split.
  - apply NoDup_ListNoDup.
    rewrite (fmap_Permutation fst _ _ Hperm).
    apply NoDup_fst_map_to_list.
  - intros c meth. rewrite <- list_elem_of_In, Hperm.
    apply elem_of_map_to_list.
Qed.

(** X1. The order in which Go ranges over the method map does not change
    what [rangeTargetRuleFuncMap] returns: over a map whose keys are
    operators, every order of the entries gives the same operator and
    method. *)
Lemma rangeEntries_order (fm : targetRuleFuncMap) (candidate : string)
  (entries : list (ComparisonOperator * TargetRuleMethod)) :
  Permutation entries (map_to_list fm) ->
  keys_are_operators (Some fm) ->
  rangeEntries candidate entries = rangeEntries candidate (map_to_list fm).
Proof.
  intros Hperm Hkeys'.
  assert (Hkeys : forall k, fm !! k <> None -> In k operators)
    by (intros k Hk; exact (Hkeys' fm k eq_refl Hk)).
  clear Hkeys'.
  destruct (entries_of_map fm entries Hperm) as [Hnd Hin].
  destruct (entries_of_map fm (map_to_list fm) (Permutation_refl _))
    as [Hnd0 Hin0].
  assert (Hcase :
    (exists c meth, fm !! c = Some meth /\
                    strInSliceFold candidate (forms c) = true) \/
    (forall c meth, fm !! c = Some meth ->
                    strInSliceFold candidate (forms c) = false)).
  { clear Hnd Hin Hperm entries Hnd0.
    assert (Hgen : forall l : list (ComparisonOperator * TargetRuleMethod),
      (exists c meth, In (c, meth) l /\
                      strInSliceFold candidate (forms c) = true) \/
      (forall c meth, In (c, meth) l ->
                      strInSliceFold candidate (forms c) = false)).
    { induction l as [|[k v] l IH]; [right; intros ? ? []|].
      destruct (strInSliceFold candidate (forms k)) eqn:E.
      - left. exists k, v. simpl. auto.
      - destruct IH as [[c [m [Hc Hm]]]|IH].
        + left. exists c, m. simpl. auto.
        + right. intros c m [Heq|Hc]; [congruence | eauto]. }
    destruct (Hgen (map_to_list fm)) as [[c [m [Hc Hm]]]|Hno].
    - left. exists c, m. split; [apply Hin0; exact Hc | exact Hm].
    - right. intros c m Hc. apply (Hno c m). apply Hin0. exact Hc. }
  destruct Hcase as [[c [meth [Hc Hm]]]|Hno].
  - assert (Hop : In c operators) by (apply Hkeys; congruence).
    assert (Hother : forall k, k <> c ->
                       strInSliceFold candidate (forms k) = false).
    { assert (Hex : exists form, In form (forms c) /\
                      strings.EqualFold candidate form = true).
      { clear - Hm. unfold forms in *. simpl in Hm.
        repeat match type of Hm with
               | context [strings.EqualFold candidate ?f] =>
                   destruct (strings.EqualFold candidate f) eqn:?;
                   [eexists; split; [|eassumption]; simpl; tauto|]
               end.
        discriminate. }
      destruct Hex as [form [Hf Hfold]].
      exact (forms_unique c form candidate Hop Hf Hfold). }
    rewrite (rangeEntries_found candidate c meth entries Hnd
               (proj2 (Hin c meth) Hc) Hm Hother).
    rewrite (rangeEntries_found candidate c meth (map_to_list fm) Hnd0
               (proj2 (Hin0 c meth) Hc) Hm Hother).
    reflexivity.
  - rewrite !rangeEntries_no_match; [reflexivity| |].
    + intros k Hk. apply in_map_iff in Hk. destruct Hk as [[k' m] [<- Hk]].
      apply (Hno k' m). apply Hin0. exact Hk.
    + intros k Hk. apply in_map_iff in Hk. destruct Hk as [[k' m] [<- Hk]].
      apply (Hno k' m). apply Hin. exact Hk.
Qed.

(** A text that matches no form of the six operators matches no entry
    of a map whose keys are operators. *)
Lemma rangeEntries_unmatched (fm : targetRuleFuncMap) (candidate : string)
  (entries : list (ComparisonOperator * TargetRuleMethod)) :
  keys_are_operators (Some fm) ->
  matches_no_form candidate ->
  Permutation entries (map_to_list fm) ->
  rangeEntries candidate entries = (badCop, None).
Proof.
  intros Hkeys Hno Hperm.
  destruct (entries_of_map fm entries Hperm) as [_ Hin].
  apply rangeEntries_no_match. intros k Hk.
  apply in_map_iff in Hk. destruct Hk as [[k' m] [<- Hk]].
  apply Hno. apply (Hkeys fm k' eq_refl).
  apply Hin in Hk. simpl. congruence.
Qed.

(** C2, as the code reads text against the three forms.  The claim as
    stated fails for [matchCOP]: the short name and the description of an
    operator resolve to the invalid operator. *)
Lemma matchCOP_rejects_names :
  matchCOP (stackage.cop_Context Eq) = badCop
  /\ matchCOP (stackage.cop_Description Eq) = badCop
  /\ matchCOP "Eq" = badCop
  /\ matchCOP "Equal To" = badCop.
Proof. repeat split. Qed.

(** C2 (amended).  For each of the six operators: [matchCOP] resolves its
    symbol, and resolves any text that is not one of the six symbols to
    the invalid operator; [rangeTargetRuleFuncMap], behind
    [TargetRuleMethods.Index], resolves a text that equals any of the
    operator's three forms up to case, in whatever order the map is ranged
    over, provided the method map holds the operator, and resolves a text
    that matches no form to the invalid operator and a nil method. *)
Theorem operator_from_text (c : ComparisonOperator) :
  In c operators ->
  matchCOP (stackage.cop_String c) = c
  /\ (forall s, (forall k, In k operators -> s <> stackage.cop_String k) ->
        matchCOP s = badCop)
  /\ (forall (fm : targetRuleFuncMap) meth form candidate entries,
        fm !! c = Some meth ->
        In form (forms c) ->
        strings.EqualFold candidate form = true ->
        Permutation entries (map_to_list fm) ->
        rangeEntries candidate entries = (c, meth)
        /\ TargetRuleMethods_Index (any_string candidate) (Some fm)
           = Returns (c, meth))
  /\ (forall (fm : targetRuleFuncMap) candidate entries,
        keys_are_operators (Some fm) ->
        matches_no_form candidate ->
        Permutation entries (map_to_list fm) ->
        rangeEntries candidate entries = (badCop, None)
        /\ TargetRuleMethods_Index (any_string candidate) (Some fm)
           = Returns (badCop, None)).
Proof.
  intros Hc. split; [|split; [|split]].
  - apply matchCOP_symbol. exact Hc.
  - intros s Hs. destruct (matchCOP_spec s) as [E|[Hin Heq]]; [exact E|].
    exfalso. apply (Hs (matchCOP s) Hin). symmetry. exact Heq.
  - intros fm meth form candidate entries Hlook Hform Hfold Hperm.
    assert (Hfound : forall l, Permutation l (map_to_list fm) ->
                       rangeEntries candidate l = (c, meth)).
    { intros l Hl. destruct (entries_of_map fm l Hl) as [Hnd Hin].
      apply rangeEntries_found.
      - exact Hnd.
      - apply Hin. exact Hlook.
      - exact (strInSliceFold_In candidate form (forms c) Hform Hfold).
      - exact (forms_unique c form candidate Hc Hform Hfold). }
    split; [apply Hfound; exact Hperm|].
    change (Returns (rangeEntries candidate (map_to_list fm)) = Returns (c, meth)).
    rewrite (Hfound _ (Permutation_refl _)). reflexivity.
  - intros fm candidate entries Hkeys Hno Hperm.
    assert (Hnone : forall l, Permutation l (map_to_list fm) ->
                      rangeEntries candidate l = (badCop, None)).
    { intros l Hl. exact (rangeEntries_unmatched fm candidate l Hkeys Hno Hl). }
    split; [apply Hnone; exact Hperm|].
    change (Returns (rangeEntries candidate (map_to_list fm))
            = Returns (badCop, None)).
    rewrite (Hnone _ (Permutation_refl _)). reflexivity.
Qed.

Lemma operator_from_text_witness :
  matchCOP "=" = Eq
  /\ TargetRuleMethods_Index (any_string "eQuAl tO") (Some methods_Eq_Ne)
     = Returns (Eq, None).
Proof.
  assert (HEq : In Eq operators) by (simpl; tauto).
  destruct (operator_from_text Eq HEq) as [Hsym [_ [Hforms _]]].
  split; [exact Hsym|].
  apply (Hforms methods_Eq_Ne None "Equal To" "eQuAl tO"
           (map_to_list methods_Eq_Ne)).
  - reflexivity.
  - simpl. tauto.
  - reflexivity.
  - apply Permutation_refl.
Defined.

(** ** TargetRuleMethods.Index *)

Lemma index_int_returns (tv : Z) (m : targetRuleFuncMap) :
  exists res, index_int tv (Some m) = Returns res.
Proof.
  unfold index_int.
  destruct (negb ((1 <=? tv) && (tv <=? 6))); [eauto|].
  simpl. destruct (m !! tv); eauto.
Qed.

Lemma index_int_out_of_range (tv : Z) (r : TargetRuleMethods) :
  ~ (1 <= tv <= 6) -> index_int tv r = Returns (badCop, None).
Proof.
  intros H. unfold index_int.
  destruct (Z.leb_spec 1 tv); destruct (Z.leb_spec tv 6); simpl;
    try reflexivity.
  exfalso. apply H. lia.
Qed.

(** C10. Index never panics: every call returns.  For a zero receiver, an
    integer or a ComparisonOperator outside 1..6, a string that matches
    no form of the six operators (the keys of a method map being
    operators), or an index of any other type, it returns the invalid
    operator and a nil method. *)
Theorem TargetRuleMethods_Index_total (r : TargetRuleMethods) (idx : any) :
  (exists res, TargetRuleMethods_Index idx r = Returns res)
  /\ (unresolvable r idx ->
      TargetRuleMethods_Index idx r = Returns (badCop, None)).
Proof.
  unfold TargetRuleMethods_Index, TargetRuleMethods_index. split.
  - destruct r as [m|]; [|simpl; eauto].
    destruct idx; simpl; eauto using index_int_returns.
  - intros H. destruct H as [idx ->|i Hi|c Hc|s Hs Hkeys|idx Hother].
    + reflexivity.
    + destruct r; simpl; [apply index_int_out_of_range; exact Hi|reflexivity].
    + destruct r; simpl; [apply index_int_out_of_range; exact Hc|reflexivity].
    + destruct r as [m|]; simpl; [|reflexivity].
      change (Returns (rangeEntries s (map_to_list m)) = Returns (badCop, None)).
      rewrite (rangeEntries_unmatched m s (map_to_list m) Hkeys Hs
                 (Permutation_refl _)).
      reflexivity.
    + destruct r; [|reflexivity].
      destruct idx; simpl in *; (reflexivity || destruct Hother).
Qed.

Lemma bogus_matches_no_form : matches_no_form "bogus".
Proof. intros k Hin. each_operator Hin; reflexivity. Qed.

Lemma methods_Eq_Ne_keys : keys_are_operators (Some methods_Eq_Ne).
Proof.
  intros m k Hm Hk. inversion Hm; subst m. clear Hm.
  unfold methods_Eq_Ne in Hk.
  destruct (decide (k = Eq)) as [->|HEq]; [simpl; tauto|].
  destruct (decide (k = Ne)) as [->|HNe]; [simpl; tauto|].
  rewrite !lookup_insert_ne in Hk by congruence.
  rewrite lookup_empty in Hk. contradiction.
Qed.

Lemma rangeEntries_order_witness :
  rangeEntries "ne" (rev (map_to_list methods_Eq_Ne))
  = rangeEntries "ne" (map_to_list methods_Eq_Ne).
Proof.
  apply (rangeEntries_order methods_Eq_Ne "ne").
  - symmetry. apply Permutation_rev.
  - exact methods_Eq_Ne_keys.
Defined.

Lemma TargetRuleMethods_Index_total_witness :
  TargetRuleMethods_Index (any_int 0) (Some methods_Eq_Ne)
  = Returns (badCop, None)
  /\ TargetRuleMethods_Index (any_string "bogus") (Some methods_Eq_Ne)
     = Returns (badCop, None)
  /\ TargetRuleMethods_Index (any_int 1) None = Returns (badCop, None).
Proof.
  split; [|split].
  - apply (proj2 (TargetRuleMethods_Index_total (Some methods_Eq_Ne) (any_int 0))).
    apply unresolvable_int. lia.
  - apply (proj2 (TargetRuleMethods_Index_total (Some methods_Eq_Ne)
                    (any_string "bogus"))).
    apply unresolvable_string.
    + exact bogus_matches_no_form.
    + exact methods_Eq_Ne_keys.
  - apply (proj2 (TargetRuleMethods_Index_total None (any_int 1))).
    apply unresolvable_zero. reflexivity.
Defined.

(** ** TargetRules: one rule per Target keyword *)

Lemma matchTKW_String (k : TargetKeyword) :
  matchTKW (TargetKeyword_String k) = k.
Proof. destruct k; reflexivity. Qed.

Lemma TargetKeyword_String_fold (a b : TargetKeyword) :
  strings.EqualFold (TargetKeyword_String a) (TargetKeyword_String b) = true ->
  a = b.
Proof. destruct a, b; (reflexivity || discriminate). Qed.

Lemma TargetKeyword_eqb_eq (a b : TargetKeyword) :
  TargetKeyword_eqb a b = true <-> a = b.
Proof. destruct a, b; simpl; split; (reflexivity || discriminate). Qed.

Lemma TargetRules_Index_nth (s : stackage.stack TargetRule) (pre suf : list TargetRule)
  (e : TargetRule) :
  stackage.s_elems s = (pre ++ e :: suf)%list ->
  TargetRules_Index (Some s) (Z.of_nat (length pre)) = e.
Proof.
  intros H. unfold TargetRules_Index, stackage.Stack_Index.
  destruct (Z.ltb_spec (Z.of_nat (length pre)) 0) as [Hlt|_]; [lia|].
  rewrite Nat2Z.id, H, nth_error_app2 by lia.
  rewrite Nat.sub_diag. reflexivity.
Qed.

(** The loop of [contains] visits the elements in order. *)
Lemma contains_loop_existsb (s : stackage.stack TargetRule) (candidate : string)
  (suf pre : list TargetRule) :
  stackage.s_elems s = (pre ++ suf)%list ->
  contains_loop (Some s) candidate (Z.of_nat (length pre)) (length suf)
  = existsb (fun e => strings.EqualFold
                        (TargetKeyword_String (TargetRule_Keyword e)) candidate)
      suf.
Proof.
  revert pre. induction suf as [|e suf IH]; intros pre H; [reflexivity|].
  simpl. rewrite (TargetRules_Index_nth s pre suf e H).
  destruct (strings.EqualFold _ candidate); [reflexivity|].
  specialize (IH (pre ++ [e])%list).
  rewrite length_app in IH. simpl in IH.
  replace (Z.of_nat (length pre + 1)) with (Z.of_nat (length pre) + 1) in IH
    by lia.
  apply IH. rewrite <- app_assoc. exact H.
Qed.

(** [contains] of a Target keyword: some element bears it. *)
Lemma TargetRules_contains_keyword (r : TargetRules) (k : TargetKeyword) :
  k <> badTKW ->
  TargetRules_contains r (any_TargetKeyword k) = true <->
  exists i, 0 <= i < TargetRules_Len r
            /\ TargetRule_Keyword (TargetRules_Index r i) = k.
Proof.
  intros Hk. unfold TargetRules_contains.
  destruct r as [s|].
  2:{ simpl. split; [discriminate | intros [i [Hi _]]; lia]. }
  rewrite matchTKW_String.
  destruct (TargetKeyword_eqb k badTKW) eqn:Ek.
  { apply TargetKeyword_eqb_eq in Ek. contradiction. }
  assert (Hlen : (String.length (TargetKeyword_String k) =? 0)%nat = false)
    by (destruct k; reflexivity).
  rewrite Hlen.
  unfold TargetRules_Len, stackage.Stack_Len. rewrite Nat2Z.id.
  rewrite (contains_loop_existsb s _ (stackage.s_elems s) [] eq_refl).
  destruct (Z.eqb_spec (Z.of_nat (length (stackage.s_elems s))) 0) as [Hz|Hnz].
  - split; [discriminate | intros [i [Hi _]]; lia].
  - rewrite existsb_exists. split.
    + intros [e [Hin Hf]]. apply TargetKeyword_String_fold in Hf.
      apply In_nth_error in Hin. destruct Hin as [n Hn].
      exists (Z.of_nat n). split.
      * assert (n < length (stackage.s_elems s))%nat
          by (apply nth_error_Some; congruence). lia.
      * unfold TargetRules_Index, stackage.Stack_Index.
        destruct (Z.ltb_spec (Z.of_nat n) 0); [lia|].
        rewrite Nat2Z.id, Hn. exact Hf.
    + intros [i [Hi Hkw]].
      unfold TargetRules_Index, stackage.Stack_Index in Hkw.
      destruct (Z.ltb_spec i 0); [lia|].
      destruct (nth_error (stackage.s_elems s) (Z.to_nat i)) as [e|] eqn:He.
      * exists e. split; [eapply nth_error_In; exact He|].
        rewrite Hkw. apply EqualFold_refl.
      * apply nth_error_None in He. lia.
Qed.

(** A rule whose Target keyword an element already bears is refused by
    the policy, and the stack stays as it is. *)
Lemma TargetRules_Push1_present (r : TargetRules) (tv : TargetRule) :
  TargetRule_Keyword tv <> badTKW ->
  (exists i, 0 <= i < TargetRules_Len r
             /\ TargetRule_Keyword (TargetRules_Index r i) = TargetRule_Keyword tv) ->
  TargetRules_Push1 r tv = r.
Proof.
  intros Hk Hex.
  apply (TargetRules_contains_keyword r _ Hk) in Hex.
  unfold TargetRules_Push1, stackage.Stack_Push.
  destruct r as [s|]; [|reflexivity].
  destruct (stackage.s_readonly s); [reflexivity|].
  destruct (stackage.capReached s); [reflexivity|].
  unfold TargetRules_pushPolicy. rewrite Hex. reflexivity.
Qed.

(** A push adds the rule at the end, or changes nothing. *)
Lemma TargetRules_Push1_cases (r : TargetRules) (tv : TargetRule) :
  TargetRules_Push1 r tv = r \/
  exists s, r = Some s /\ TargetRules_Push1 r tv = Some (stackage.append_elem tv s).
Proof.
  unfold TargetRules_Push1, stackage.Stack_Push.
  destruct r as [s|]; [|left; reflexivity].
  destruct (stackage.s_readonly s); [left; reflexivity|].
  destruct (stackage.capReached s); [left; reflexivity|].
  destruct (TargetRules_pushPolicy _ _); [left; reflexivity|].
  right. exists s. split; reflexivity.
Qed.

(** C3. For every TargetRules collection and every TargetRule whose
    Target keyword (one of the nine) is the keyword of an element already
    present, the push is rejected: the collection, and so Len(), is
    unchanged.  Hence pushing two rules with the same Target keyword
    increases Len() at most once: the second push is rejected. *)
Theorem TargetRules_Push_keyword_unique (r : TargetRules) (tv : TargetRule) :
  TargetRule_Keyword tv <> badTKW ->
  ((exists i, 0 <= i < TargetRules_Len r
              /\ TargetRule_Keyword (TargetRules_Index r i)
                 = TargetRule_Keyword tv) ->
   TargetRules_Push r [tv] = r
   /\ TargetRules_Len (TargetRules_Push r [tv]) = TargetRules_Len r)
  /\ (forall tv2, TargetRule_Keyword tv2 = TargetRule_Keyword tv ->
        TargetRules_Push r [tv; tv2] = TargetRules_Push r [tv]
        /\ TargetRules_Len (TargetRules_Push r [tv; tv2]) <= TargetRules_Len r + 1).
Proof.
  intros Hk. split.
  - intros Hex. simpl.
    rewrite (TargetRules_Push1_present r tv Hk Hex). auto.
  - intros tv2 H2. simpl.
    assert (Hk2 : TargetRule_Keyword tv2 <> badTKW) by congruence.
    destruct (TargetRules_Push1_cases r tv) as [Hsame|[s [-> Happ]]].
    + rewrite Hsame.
      destruct (TargetRules_Push1_cases r tv2) as [Hsame2|[s [-> Happ2]]].
      * rewrite Hsame2. split; [reflexivity | lia].
      * (* the first push was refused: so is the second *)
        exfalso.
        unfold TargetRules_Push1, stackage.Stack_Push in Hsame, Happ2.
        destruct (stackage.s_readonly s); [inversion Happ2 as [Hc]|].
        { apply (f_equal (fun x => length (stackage.s_elems x))) in Hc.
          simpl in Hc. rewrite length_app in Hc. simpl in Hc. lia. }
        destruct (stackage.capReached s); [inversion Happ2 as [Hc]|].
        { apply (f_equal (fun x => length (stackage.s_elems x))) in Hc.
          simpl in Hc. rewrite length_app in Hc. simpl in Hc. lia. }
        unfold TargetRules_pushPolicy in Hsame, Happ2.
        rewrite H2 in Happ2.
        destruct (TargetRules_contains (Some s)
                    (any_TargetKeyword (TargetRule_Keyword tv))).
        { inversion Happ2 as [Hc].
          apply (f_equal (fun x => length (stackage.s_elems x))) in Hc.
          simpl in Hc. rewrite length_app in Hc. simpl in Hc. lia. }
        destruct (TargetRule_IsZero tv) eqn:Hz.
        { unfold TargetRule_IsZero, stackage.Condition_IsZero, castAsCondition in Hz.
          destruct tv; [discriminate|]. apply Hk. reflexivity. }
        inversion Hsame as [Hc].
        apply (f_equal (fun x => length (stackage.s_elems x))) in Hc.
        simpl in Hc. rewrite length_app in Hc. simpl in Hc. lia.
    + rewrite Happ.
      assert (Hpresent : exists i,
                 0 <= i < TargetRules_Len (Some (stackage.append_elem tv s))
                 /\ TargetRule_Keyword
                      (TargetRules_Index (Some (stackage.append_elem tv s)) i)
                    = TargetRule_Keyword tv2).
      { exists (Z.of_nat (length (stackage.s_elems s))). split.
        - unfold TargetRules_Len, stackage.Stack_Len. simpl.
          rewrite length_app. simpl. lia.
        - rewrite (TargetRules_Index_nth (stackage.append_elem tv s)
                     (stackage.s_elems s) [] tv eq_refl).
          symmetry. exact H2. }
      rewrite (TargetRules_Push1_present _ tv2 Hk2 Hpresent).
      split; [reflexivity|].
      unfold TargetRules_Len, stackage.Stack_Len. simpl.
      rewrite length_app. simpl. lia.
Qed.

(** The policy is about the nine Target keywords: [contains] answers no
    for the zero keyword, so rules whose keyword text is no Target keyword
    are not told apart by it. *)
Remark TargetRules_contains_badTKW (r : TargetRules) :
  TargetRules_contains r (any_TargetKeyword badTKW) = false.
Proof.
  unfold TargetRules_contains.
  destruct (TargetRules_Len r =? 0); reflexivity.
Qed.

Lemma TargetRules_Push_keyword_unique_witness :
  let a := TR true (any_TargetKeyword Target) (any_ComparisonOperator Eq)
             (stackage.ex_string "ldap:///uid=jesse,ou=People,dc=example,dc=com") in
  let b := TR true (any_string "TARGET") (any_ComparisonOperator Ne)
             (stackage.ex_string "ldap:///uid=courtney,ou=People,dc=example,dc=com") in
  let r := TargetRules_Push (TRs true) [a] in
  TargetRules_Len r = 1
  /\ TargetRules_Len (TargetRules_Push r [b]) = TargetRules_Len r
  /\ TargetRules_Push (TRs true) [a; b] = TargetRules_Push (TRs true) [a].
Proof.
  cbv zeta. split; [reflexivity|]. split.
  - eapply (proj1 (TargetRules_Push_keyword_unique _ _ _)).
    exists 0. split; [|reflexivity].
    split; [lia | reflexivity].
  - eapply (proj2 (TargetRules_Push_keyword_unique _ _ _)). reflexivity.
  Unshelve. all: discriminate.
Defined.

(** ** Rendering a TargetRule *)

Lemma append_assoc (a b c : string) : (a ++ b) ++ c = a ++ b ++ c.
Proof.
  induction a as [|x a IH]; [reflexivity|].
  change (String x ((a ++ b) ++ c) = String x (a ++ b ++ c)).
  rewrite IH. reflexivity.
Qed.

(** Both sides are the same text up to the bracketing of [++]. *)
Ltac same_text := rewrite ?append_assoc; reflexivity.

(** The quoted text of a scalar expression. *)
Lemma TargetRule_String_shape (c : stackage.condition) :
  TargetRule_String (Some c)
  = "(" ++ stackage.pad_of (stackage.c_nopad c)
    ++ (stackage.c_kw c ++ stackage.pad_of (stackage.c_nopad c)
        ++ stackage.operator_text (stackage.c_op c)
        ++ stackage.pad_of (stackage.c_nopad c)
        ++ stackage.expression_text (stackage.c_encap c) (stackage.c_ex c))
    ++ stackage.pad_of (stackage.c_nopad c) ++ ")".
Proof.
  unfold TargetRule_String, TargetRule_IsZero, castAsCondition. simpl.
  destruct (stackage.c_paren c) eqn:E; simpl;
    unfold stackage.condition_string; simpl; rewrite ?E; reflexivity.
Qed.

(** C6, as the claim states it, fails: on a rule whose parenthesization
    has been disabled (through its stackage.Condition, or never enabled
    because the rule was built by the setters alone), String() renders the
    bounding parentheses all the same. *)
Lemma TargetRule_String_paren_disabled :
  let r := stackage.Condition_Paren false
             (TR true (any_TargetKeyword TargetScope)
                (any_ComparisonOperator Eq) (stackage.ex_string "onelevel")) in
  let r' := TargetRule_SetExpression (stackage.ex_string "onelevel")
              (TargetRule_SetOperator (any_ComparisonOperator Eq)
                 (TargetRule_SetKeyword (any_TargetKeyword TargetScope)
                    badTargetRule)) in
  stackage.Condition_IsParen r = false
  /\ TargetRule_String r
     = "( targetscope = " ++ dquote ++ "onelevel" ++ dquote ++ " )"
  /\ TargetRule_String r
     <> "targetscope = " ++ dquote ++ "onelevel" ++ dquote
  /\ stackage.Condition_IsParen r' = false
  /\ TargetRule_String r' = TargetRule_String r.
Proof. cbv zeta. repeat split. discriminate. Qed.

(** C6 (amended). For every non-zero TargetRule that holds a keyword, an
    operator and a scalar expression, with padding and the double-quote
    encapsulation, String() renders
    ( <keyword-text> <operator-symbol> <quoted-expression> ), whether
    parenthesization is enabled on the rule or not: String() enables it
    before rendering.  (The condition itself, rendered by stackage, has no
    bounding parentheses when parenthesization is disabled.) *)
Theorem TargetRule_String_parenthesized
  (kw : string) (o : ComparisonOperator) (e : string) (paren : bool)
  (id category : string) :
  let c := stackage.mkCondition kw (Some o) (stackage.ex_string e) paren false
             (Some dquote) id category in
  TargetRule_String (Some c)
  = "( " ++ kw ++ " " ++ stackage.cop_String o ++ " "
    ++ dquote ++ e ++ dquote ++ " )"
  /\ stackage.Condition_String (Some (stackage.set_paren false c))
     = kw ++ " " ++ stackage.cop_String o ++ " " ++ dquote ++ e ++ dquote.
Proof.
  cbv zeta. split.
  - rewrite TargetRule_String_shape.
    cbn [stackage.c_nopad stackage.c_kw stackage.c_op stackage.c_encap
         stackage.c_ex stackage.pad_of stackage.operator_text
         stackage.expression_text stackage.encapv].
    same_text.
  - reflexivity.
Qed.

(** ** Quotation styles of a multi-valued expression *)

(** C8. For the attribute types cn, sn and givenName (and any three
    values in their place), the equality condition renders, with the outer
    quote style (the default), one pair of quotes around the joined values,
    and with the per-element quote style each value in quotes of its own
    around bare delimiters. *)
Theorem SetQuoteStyle_duality :
  (forall a b c : string,
     TargetRule_String
       (TargetRule_SetQuoteStyle MultivalOuterQuotes
          (AttributeTypes_Eq true (TAs true [a; b; c])))
     = "( targetattr = " ++ dquote ++ a ++ " || " ++ b ++ " || " ++ c
       ++ dquote ++ " )"
     /\ TargetRule_String
          (TargetRule_SetQuoteStyle MultivalSliceQuotes
             (AttributeTypes_Eq true (TAs true [a; b; c])))
        = "( targetattr = " ++ dquote ++ a ++ dquote ++ " || "
          ++ dquote ++ b ++ dquote ++ " || " ++ dquote ++ c ++ dquote ++ " )")
  /\ TargetRule_String (AttributeTypes_Eq true (TAs true ["cn"; "sn"; "givenName"]))
     = "( targetattr = " ++ dquote ++ "cn || sn || givenName" ++ dquote ++ " )"
  /\ TargetRule_String
       (TargetRule_SetQuoteStyle MultivalOuterQuotes
          (AttributeTypes_Eq true (TAs true ["cn"; "sn"; "givenName"])))
     = "( targetattr = " ++ dquote ++ "cn || sn || givenName" ++ dquote ++ " )"
  /\ TargetRule_String
       (TargetRule_SetQuoteStyle MultivalSliceQuotes
          (AttributeTypes_Eq true (TAs true ["cn"; "sn"; "givenName"])))
     = "( targetattr = " ++ dquote ++ "cn" ++ dquote ++ " || "
       ++ dquote ++ "sn" ++ dquote ++ " || "
       ++ dquote ++ "givenName" ++ dquote ++ " )".
Proof.
  split; [|repeat split].
  intros a b c. split.
  - match goal with
    | |- TargetRule_String ?r = _ =>
        let r' := eval vm_compute in r in change r with r'
    end.
    rewrite TargetRule_String_shape.
    cbv [stackage.c_nopad stackage.c_kw stackage.c_op stackage.c_encap
         stackage.c_ex stackage.pad_of stackage.operator_text
         stackage.expression_text stackage.encapv stackage.stack_string
         stackage.s_nopad stackage.s_delim stackage.s_encap stackage.s_elems
         stackage.s_paren strings.Join map String.eqb Ascii.eqb Bool.eqb].
    same_text.
  - match goal with
    | |- TargetRule_String ?r = _ =>
        let r' := eval vm_compute in r in change r with r'
    end.
    rewrite TargetRule_String_shape.
    cbv [stackage.c_nopad stackage.c_kw stackage.c_op stackage.c_encap
         stackage.c_ex stackage.pad_of stackage.operator_text
         stackage.expression_text stackage.encapv stackage.stack_string
         stackage.s_nopad stackage.s_delim stackage.s_encap stackage.s_elems
         stackage.s_paren strings.Join map String.eqb Ascii.eqb Bool.eqb].
    same_text.
Qed.

(** ** The inheritance grammar *)

Lemma append_cons (x : ascii) (a b : string) :
  String x a ++ b = String x (a ++ b).
Proof. reflexivity. Qed.

Lemma Cut_app (c : ascii) (a b : string) :
  string_forall (is_not c) a = true ->
  strings.Cut c (a ++ String c b) = Some (a, b).
Proof.
  induction a as [|x a IH]; intros H.
  - change ("" ++ String c b) with (String c b). simpl.
    rewrite Ascii.eqb_refl. reflexivity.
  - rewrite append_cons. simpl in H. apply andb_prop in H. destruct H as [Hx Ha].
    unfold is_not in Hx. simpl.
    destruct (Ascii.eqb x c); [discriminate|].
    rewrite (IH Ha). reflexivity.
Qed.

Lemma level_cases (n : Z) :
  level_ok n = true -> In n [0; 1; 2; 3; 4; 5; 6; 7; 8; 9].
Proof.
  unfold level_ok. intros H. apply andb_prop in H. simpl. lia.
Qed.

Ltac each_level H :=
  apply level_cases in H; simpl in H;
  repeat (destruct H as [<-|H]; [|]); [ .. | destruct H].

(** The numeral of a level: one digit, read back by [Atoi], written by
    [Itoa], and neither a comma nor a bracket. *)
Lemma numeral_level (n : Z) :
  level_ok n = true ->
  strings.Atoi (numeral n) = Some n
  /\ strings.Itoa n = numeral n
  /\ Ascii.eqb (strings.digit_char n) "," = false
  /\ is_not "]" (strings.digit_char n) = true.
Proof. intros H. each_level H; repeat split. Qed.

Lemma forallb_cons_level (first : Z) (rest : list Z) :
  forallb level_ok (first :: rest) = true ->
  level_ok first = true /\ forallb level_ok rest = true.
Proof. simpl. intros H. apply andb_prop in H. exact H. Qed.

Lemma Split_levels_text (rest : list Z) (first : Z) :
  forallb level_ok (first :: rest) = true ->
  strings.Split "," (levels_text first rest) = map numeral (first :: rest).
Proof.
  revert first. induction rest as [|n rest IH]; intros first H;
    apply forallb_cons_level in H; destruct H as [Hf Hr].
  - destruct (numeral_level first Hf) as [_ [_ [Hc _]]].
    simpl. rewrite Hc. reflexivity.
  - destruct (numeral_level first Hf) as [_ [_ [Hc _]]].
    change (levels_text first (n :: rest))
      with (String (strings.digit_char first)
              (String "," (levels_text n rest))).
    simpl strings.Split. rewrite Hc. rewrite (IH n Hr). reflexivity.
Qed.

Lemma levels_text_no_bracket (rest : list Z) (first : Z) :
  forallb level_ok (first :: rest) = true ->
  string_forall (is_not "]") (levels_text first rest) = true.
Proof.
  revert first. induction rest as [|n rest IH]; intros first H;
    apply forallb_cons_level in H; destruct H as [Hf Hr];
    destruct (numeral_level first Hf) as [_ [_ [_ Hb]]].
  - simpl. rewrite Hb. reflexivity.
  - change (levels_text first (n :: rest))
      with (String (strings.digit_char first)
              (String "," (levels_text n rest))).
    simpl. rewrite Hb, (IH n Hr). reflexivity.
Qed.

Lemma parseLevels_numerals (l : list Z) :
  forallb level_ok l = true -> parseLevels (map numeral l) = Some l.
Proof.
  induction l as [|n l IH]; intros H; [reflexivity|].
  apply forallb_cons_level in H. destruct H as [Hn Hl].
  destruct (numeral_level n Hn) as [Ha _].
  cbn [map parseLevels]. rewrite Ha, Hn, (IH Hl). reflexivity.
Qed.

Lemma Join_levels (rest : list Z) (first : Z) :
  forallb level_ok (first :: rest) = true ->
  strings.Join (map strings.Itoa (first :: rest)) "," = levels_text first rest.
Proof.
  revert first. induction rest as [|n rest IH]; intros first H;
    apply forallb_cons_level in H; destruct H as [Hf Hr];
    destruct (numeral_level first Hf) as [_ [Hi _]].
  - simpl. exact Hi.
  - change (strings.Join (map strings.Itoa (first :: n :: rest)) ",")
      with (strings.Itoa first ++ ","
            ++ strings.Join (map strings.Itoa (n :: rest)) ",").
    rewrite (IH n Hr), Hi. reflexivity.
Qed.

Lemma isIdentifier_body_no_hash (s : string) :
  isIdentifier_body s = true -> string_forall (is_not "#") s = true.
Proof.
  induction s as [|ch s IH]; intros H; [reflexivity|].
  simpl in H |- *. unfold is_not at 1.
  destruct (Ascii.eqb_spec ch "#") as [->|_].
  - vm_compute in H. discriminate.
  - simpl. destruct (isAlnum ch); [auto|].
    destruct (Ascii.eqb ch ";" || Ascii.eqb ch "-"); [auto | discriminate].
Qed.

Lemma isIdentifier_no_hash (s : string) :
  isIdentifier s = true -> string_forall (is_not "#") s = true.
Proof.
  intros H. apply isIdentifier_body_no_hash.
  unfold isIdentifier in H. destruct s as [|c0 s]; [discriminate|].
  destruct (negb (strings.isLower c0)); [discriminate|].
  destruct (negb (isAlnum (last_byte (String c0 s) c0))); [discriminate|].
  exact H.
Qed.

Lemma eqb_empty_false (s : string) : s <> "" -> String.eqb s "" = false.
Proof. intros H. apply String.eqb_neq. exact H. Qed.

(** The parser accepts every sentence of the grammar and recovers its
    parts. *)
Lemma parseInheritance_text (first : Z) (rest : list Z) (attr bind : string) :
  forallb level_ok (first :: rest) = true ->
  isIdentifier attr = true ->
  bind <> "" ->
  parseInheritance (inheritance_text first rest attr bind)
  = (Some (mkInheritance (first :: rest) attr bind), None).
Proof.
  intros Hlv Hid Hbind. unfold parseInheritance.
  change (String.eqb (inheritance_text first rest attr bind) "") with false.
  change (strings.CutPrefix (inheritance_text first rest attr bind) "parent[")
    with (Some (levels_text first rest ++ String "]" (String "." (attr ++ String "#" bind)))).
  cbv iota beta.
  rewrite (Cut_app "]" _ _ (levels_text_no_bracket rest first Hlv)).
  cbv iota beta.
  assert (Hne : String.eqb (levels_text first rest) "" = false).
  { destruct rest; reflexivity. }
  rewrite Hne, (Split_levels_text rest first Hlv),
    (parseLevels_numerals (first :: rest) Hlv).
  cbv iota beta.
  rewrite (Cut_app "#" attr bind (isIdentifier_no_hash attr Hid)).
  cbv iota beta.
  rewrite Hid, (eqb_empty_false bind Hbind). reflexivity.
Qed.

Lemma Inheritance_String_text (first : Z) (rest : list Z) (attr bind : string) :
  forallb level_ok (first :: rest) = true ->
  isIdentifier attr = true ->
  bind <> "" ->
  Inheritance_String (Some (mkInheritance (first :: rest) attr bind))
  = inheritance_text first rest attr bind.
Proof.
  intros Hlv Hid Hbind. unfold Inheritance_String, Inheritance_valid.
  cbn [inh_levels inh_attr inh_bind].
  rewrite Hlv, Hid, (eqb_empty_false bind Hbind), (Join_levels rest first Hlv).
  reflexivity.
Qed.

(** C4. For every raw string that is a sentence of the inheritance
    grammar parent[<levels>].<attributeType>#<bindType>, parseInheritance
    succeeds (a nil error), and String() of the parsed Inheritance is raw,
    byte for byte. *)
Theorem parseInheritance_round_trip (raw : string) :
  inheritance_grammar raw ->
  exists i, parseInheritance raw = (Some i, None)
            /\ Inheritance_String (Some i) = raw.
Proof.
  intros [first [rest [attr [bind [Hlv [_ [Hid [Hbind ->]]]]]]]].
  exists (mkInheritance (first :: rest) attr bind). split.
  - exact (parseInheritance_text first rest attr bind Hlv Hid Hbind).
  - exact (Inheritance_String_text first rest attr bind Hlv Hid Hbind).
Qed.

Lemma parseInheritance_round_trip_witness :
  exists i, parseInheritance "parent[0,5,9].manager#USERDN" = (Some i, None)
            /\ Inheritance_String (Some i) = "parent[0,5,9].manager#USERDN".
Proof.
  apply (parseInheritance_round_trip "parent[0,5,9].manager#USERDN").
  exists 0, [5; 9], "manager", "USERDN".
  repeat split; discriminate.
Defined.

Lemma first_byte_differs (a b : ascii) (s t : string) :
  a <> b -> String a s <> String b t.
Proof. intros H E. inversion E. contradiction. Qed.

(** C5. Each of the four malformed inputs is rejected: parseInheritance
    returns the zero Inheritance and a non-nil error.  String() of the
    zero value, and of any invalid value, is the sentinel; the sentinel is
    not the empty string and is not the text of any valid Inheritance. *)
Theorem parseInheritance_malformed :
  rejects "parent[100].manager#USERDN"
  /\ rejects "parent[].manager#SELFDN"
  /\ rejects "parent[4]#ROLEDN"
  /\ rejects "parent[0]].owner#GROUPDN"
  /\ Inheritance_String None = badInheritance
  /\ badInheritance <> ""
  /\ (forall i, Inheritance_valid i = false ->
        Inheritance_String (Some i) = badInheritance)
  /\ (forall i, Inheritance_valid i = true ->
        Inheritance_String (Some i) <> badInheritance
        /\ Inheritance_String (Some i) <> "").
Proof.
  repeat match goal with
         | |- rejects _ /\ _ =>
             split; [repeat split; discriminate|]
         end.
  split; [reflexivity|]. split; [discriminate|]. split.
  - intros i H. unfold Inheritance_String. rewrite H. reflexivity.
  - intros i H. unfold Inheritance_String. rewrite H, append_cons.
    split; [apply first_byte_differs|]; discriminate.
Qed.

Lemma parseInheritance_malformed_witness :
  Inheritance_String (Some (mkInheritance [0] "owner" "GROUPDN")) <> badInheritance
  /\ Inheritance_String (Some (mkInheritance [0] "owner" "")) = badInheritance.
Proof.
  destruct parseInheritance_malformed as [_ [_ [_ [_ [_ [_ [Hbad Hgood]]]]]]].
  split.
  - apply (Hgood (mkInheritance [0] "owner" "GROUPDN")). reflexivity.
  - apply (Hbad (mkInheritance [0] "owner" "")). reflexivity.
Defined.

(** ** SecurityStrengthFactor *)

Lemma EqualFold_other (w a : string) :
  strings.EqualFold w a = true ->
  forall b, strings.EqualFold w b
            = String.eqb (strings.ToLower a) (strings.ToLower b).
Proof.
  intros H b. apply EqualFold_true in H.
  unfold strings.EqualFold. rewrite H. reflexivity.
Qed.

Ltac fold_alias H :=
  unfold SecurityStrengthFactor_String, SecurityStrengthFactor_Set,
    stringToIntSSF;
  rewrite !(EqualFold_other _ _ H); reflexivity.

(** C9. Whatever the factor held before: Set of the words none and off,
    in any case, makes String() return 0; of the words max and full, 256;
    of the integer 128, 128; and of a word that is neither an alias nor a
    numeral, 0. *)
Theorem SecurityStrengthFactor_Set_words (r : SecurityStrengthFactor) :
  (forall w, strings.EqualFold w "none" = true \/ strings.EqualFold w "off" = true ->
     SecurityStrengthFactor_String (SecurityStrengthFactor_Set (any_string w) r) = "0")
  /\ (forall w, strings.EqualFold w "max" = true \/ strings.EqualFold w "full" = true ->
        SecurityStrengthFactor_String (SecurityStrengthFactor_Set (any_string w) r)
        = "256")
  /\ SecurityStrengthFactor_String (SecurityStrengthFactor_Set (any_int 128) r)
     = "128"
  /\ (forall w, unrecognized_word w ->
        SecurityStrengthFactor_String (SecurityStrengthFactor_Set (any_string w) r)
        = "0").
Proof.
  split; [|split; [|split]].
  - intros w [H|H]; fold_alias H.
  - intros w [H|H]; fold_alias H.
  - reflexivity.
  - intros w [Hn [Ho [Hm [Hf Ha]]]].
    unfold SecurityStrengthFactor_String, SecurityStrengthFactor_Set,
      stringToIntSSF.
    rewrite Hn, Ho, Hm, Hf, Ha. reflexivity.
Qed.

Lemma SecurityStrengthFactor_Set_words_witness :
  SecurityStrengthFactor_String (SecurityStrengthFactor_Set (any_string "nOnE") 256)
  = "0"
  /\ SecurityStrengthFactor_String (SecurityStrengthFactor_Set (any_string "OFF") 256)
     = "0"
  /\ SecurityStrengthFactor_String (SecurityStrengthFactor_Set (any_string "mAx") 0)
     = "256"
  /\ SecurityStrengthFactor_String (SecurityStrengthFactor_Set (any_string "full") 0)
     = "256"
  /\ SecurityStrengthFactor_String (SecurityStrengthFactor_Set (any_string "fart") 256)
     = "0".
Proof.
  destruct (SecurityStrengthFactor_Set_words 256) as [Hzero [_ [_ Hword]]].
  destruct (SecurityStrengthFactor_Set_words 0) as [_ [Hmax _]].
  split; [apply Hzero; left; reflexivity|].
  split; [apply Hzero; right; reflexivity|].
  split; [apply Hmax; left; reflexivity|].
  split; [apply Hmax; right; reflexivity|].
  apply Hword. repeat split.
Defined.

(** * Further properties of the code *)

(** ** misc.go: isPowerOfTwo *)

Lemma land_pow2_pred (k : Z) : 0 <= k -> Z.land (2 ^ k) (2 ^ k - 1) = 0.
Proof.
  intros Hk. apply Z.bits_inj'. intros n Hn.
  rewrite Z.land_spec, Z.bits_0, Z.pow2_bits_eqb by exact Hk.
  replace (2 ^ k - 1) with (Z.ones k) by (rewrite Z.ones_equiv; lia).
  destruct (Z.eqb_spec k n) as [->|Hne]; [|reflexivity].
  rewrite Z.ones_spec_high by lia. reflexivity.
Qed.

Lemma land_pred_zero (x : Z) :
  0 < x -> Z.land x (x - 1) = 0 -> x = 2 ^ Z.log2 x.
Proof.
  intros Hx Hland.
  destruct (Z.log2_spec x Hx) as [Hlo Hhi].
  pose proof (Z.log2_nonneg x) as Hk.
  destruct (Z.eq_dec x (2 ^ Z.log2 x)) as [E|Hne]; [exact E|exfalso].
  assert (Hlog : Z.log2 (x - 1) = Z.log2 x).
  { apply Z.log2_unique; [exact Hk|]. replace (Z.succ (Z.log2 x)) with (Z.log2 x + 1) in Hhi by lia. lia. }
  assert (H1 : Z.testbit x (Z.log2 x) = true) by (apply Z.bit_log2; exact Hx).
  assert (H2 : Z.testbit (x - 1) (Z.log2 x) = true).
  { rewrite <- Hlog. apply Z.bit_log2. lia. }
  assert (H3 : Z.testbit (Z.land x (x - 1)) (Z.log2 x) = true)
    by (rewrite Z.land_spec, H1, H2; reflexivity).
  rewrite Hland, Z.bits_0 in H3. discriminate.
Qed.

Lemma wrap64_id (z : Z) : int_range z -> wrap64 z = z.
Proof.
  unfold int_range, wrap64. intros H.
  rewrite Z.mod_small by lia. lia.
Qed.

(** X2. On Go's 64-bit [int], isPowerOfTwo answers true exactly for the
    powers of two 2^0 .. 2^62, and besides for 0 and for the least
    integer -2^63 (where x-1 wraps around): these two are reported as
    powers of two although they are not. *)
Theorem isPowerOfTwo_spec (x : Z) :
  int_range x ->
  (isPowerOfTwo x = true <->
   x = 0 \/ x = - 2 ^ 63 \/ exists k, 0 <= k < 63 /\ x = 2 ^ k).
Proof.
  intros Hr. unfold isPowerOfTwo. rewrite Z.eqb_eq.
  destruct (Z.eq_dec x (- 2 ^ 63)) as [->|Hmin].
  { split; [auto|]. intros _. reflexivity. }
  assert (Hw : wrap64 (x - 1) = x - 1)
    by (apply wrap64_id; unfold int_range in *; lia).
  rewrite Hw.
  destruct (Z_lt_le_dec x 0) as [Hneg|Hnn].
  - split.
    + intros H. assert (Z.land x (x - 1) < 0) by (apply Z.land_neg; lia). lia.
    + intros [H|[H|[k [Hk H]]]];
        first [lia | pose proof (Z.pow_pos_nonneg 2 k); lia].
  - destruct (Z.eq_dec x 0) as [->|Hz].
    { split; [auto|]. intros _. reflexivity. }
    split.
    + intros H. right. right. exists (Z.log2 x).
      assert (E : x = 2 ^ Z.log2 x) by (apply land_pred_zero; [lia | exact H]).
      split; [|exact E].
      split; [apply Z.log2_nonneg|].
      apply Z.log2_lt_pow2; [lia|]. unfold int_range in Hr. lia.
    + intros [H|[H|[k [Hk ->]]]]; try lia.
      apply land_pow2_pred. lia.
Qed.

Lemma isPowerOfTwo_spec_witness :
  (isPowerOfTwo 64 = true <->
   64 = 0 \/ 64 = - 2 ^ 63 \/ exists k, 0 <= k < 63 /\ 64 = 2 ^ k)
  /\ (isPowerOfTwo 12 = true <->
      12 = 0 \/ 12 = - 2 ^ 63 \/ exists k, 0 <= k < 63 /\ 12 = 2 ^ k).
Proof.
  split; apply isPowerOfTwo_spec; unfold int_range; lia.
Defined.

(** ** misc.go: isIdentifier *)

Lemma append_nil_l (s : string) : "" ++ s = s.
Proof. reflexivity. Qed.

Lemma string_forall_app (P : ascii -> bool) (a b : string) :
  string_forall P (a ++ b) = string_forall P a && string_forall P b.
Proof.
  induction a as [|x a IH]; [reflexivity|].
  rewrite append_cons. simpl. rewrite IH, andb_assoc. reflexivity.
Qed.

(** [string_forall] speaks of every byte, wherever it stands. *)
Lemma string_forall_bytes (P : ascii -> bool) (s : string) :
  string_forall P s = true <->
  (forall p c r, s = p ++ String c r -> P c = true).
Proof.
  split.
  - intros H p c r ->. rewrite string_forall_app in H.
    apply andb_prop in H. destruct H as [_ H]. simpl in H.
    apply andb_prop in H. tauto.
  - induction s as [|x s IH]; intros H; [reflexivity|].
    simpl. rewrite (H "" x s eq_refl). simpl.
    apply IH. intros p c r ->. apply (H (String x p) c r). reflexivity.
Qed.

Lemma isIdentifier_body_bytes (s : string) :
  isIdentifier_body s = string_forall identifier_byte s.
Proof.
  induction s as [|c s IH]; [reflexivity|].
  simpl. unfold identifier_byte at 1. rewrite IH.
  destruct (isAlnum c); [reflexivity|].
  destruct (Ascii.eqb c ";" || Ascii.eqb c "-"); reflexivity.
Qed.

Lemma last_byte_app (a : string) (c d : ascii) (r : string) :
  last_byte (a ++ String c r) d = last_byte r c.
Proof.
  revert d. induction a as [|x a IH]; intros d; [reflexivity|].
  rewrite append_cons. simpl. apply IH.
Qed.

Lemma last_byte_split (s : string) (d : ascii) :
  s <> "" -> exists p, s = p ++ String (last_byte s d) "".
Proof.
  revert d. induction s as [|x s IH]; intros d H; [contradiction|].
  destruct s as [|y s].
  - exists "". reflexivity.
  - destruct (IH x) as [p Hp]; [discriminate|].
    exists (String x p). rewrite append_cons. simpl last_byte.
    simpl last_byte in Hp. rewrite <- Hp. reflexivity.
Qed.

(** The three conditions of [isIdentifier], each on the bytes it reads. *)
Lemma isIdentifier_parts (val : string) :
  isIdentifier val = true <->
  (exists c r, val = String c r /\ strings.isLower c = true)
  /\ (exists p c, val = p ++ String c "" /\ isAlnum c = true)
  /\ (forall p c r, val = p ++ String c r -> identifier_byte c = true).
Proof.
  rewrite <- string_forall_bytes, <- isIdentifier_body_bytes.
  unfold isIdentifier. destruct val as [|c0 rest].
  - split; [discriminate|]. intros [[c [r [E _]]] _]. discriminate.
  - split.
    + intros H.
      destruct (strings.isLower c0) eqn:Hl; [|discriminate].
      destruct (isAlnum (last_byte (String c0 rest) c0)) eqn:Ha; [|discriminate].
      simpl negb in H. cbv iota in H.
      split; [exists c0, rest; auto|]. split; [|exact H].
      destruct (last_byte_split (String c0 rest) c0) as [p Hp]; [discriminate|].
      exists p, (last_byte (String c0 rest) c0). auto.
    + intros [[c [r [E Hl]]] [[p [c' [Ep Ha]]] Hb]].
      inversion E; subst c r. rewrite Hl.
      rewrite Ep at 1. rewrite last_byte_app. simpl last_byte.
      rewrite Ha. exact Hb.
Qed.

(** X3. isIdentifier accepts exactly the strings that begin with a
    lower-case letter, end with an alphanumeric, and hold nothing but
    alphanumerics, semicolons and hyphens; the empty string is refused. *)
Theorem isIdentifier_spec (val : string) :
  isIdentifier val = true <->
  (exists c r, val = String c r /\ strings.isLower c = true)
  /\ (exists p c, val = p ++ String c "" /\ isAlnum c = true)
  /\ (forall p c r, val = p ++ String c r -> identifier_byte c = true).
Proof. exact (isIdentifier_parts val). Qed.

(** X4. Identifiers compose: two identifiers joined directly, or by any
    run of allowed bytes such as a semicolon or a hyphen (an attribute
    type with an option, [cn;lang-fr]), form an identifier. *)
Theorem isIdentifier_join (a m b : string) :
  isIdentifier a = true ->
  string_forall identifier_byte m = true ->
  isIdentifier b = true ->
  isIdentifier (a ++ m ++ b) = true.
Proof.
  intros Ha Hm Hb.
  apply isIdentifier_parts in Ha. apply isIdentifier_parts in Hb.
  destruct Ha as [[c [r [-> Hl]]] [_ Hab]].
  destruct Hb as [_ [[p [c' [-> Hal]]] Hbb]].
  apply isIdentifier_parts. split; [|split].
  - exists c, (r ++ m ++ p ++ String c' ""). split; [reflexivity | exact Hl].
  - exists (String c r ++ m ++ p), c'. split; [|exact Hal].
    rewrite !append_assoc. reflexivity.
  - apply string_forall_bytes.
    apply string_forall_bytes in Hab. apply string_forall_bytes in Hbb.
    rewrite string_forall_app, Hab, string_forall_app, Hm, Hbb.
    reflexivity.
Qed.

Lemma isIdentifier_join_witness :
  isIdentifier ("cn" ++ ";" ++ "lang-fr") = true
  /\ isIdentifier ("given" ++ "" ++ "name") = true.
Proof.
  split; apply isIdentifier_join; reflexivity.
Defined.

(** ** misc.go: the keyword and operator registry *)

Lemma bind_permitted_operator (k : BindKeyword) (c : ComparisonOperator) :
  bindKeywordAllowsComparisonOperator k c = true -> In c operators.
Proof.
  unfold bindKeywordAllowsComparisonOperator.
  destruct k; simpl permittedBindComparisonOperators; try discriminate;
    rewrite cop_in_In; simpl; tauto.
Qed.

Lemma target_permitted_operator (k : TargetKeyword) (c : ComparisonOperator) :
  targetKeywordAllowsComparisonOperator k c = true -> In c operators.
Proof. intros H. apply permitted_iff in H. exact (permitted_operator k c H). Qed.

Lemma operator_nonzero (c : ComparisonOperator) : In c operators -> c <> badCop.
Proof. intros H. each_operator H; discriminate. Qed.

(** X5. Whatever the keyword, keywordAllowsComparisonOperator allows
    nothing but the six operators, given as the constant or as its
    symbol; the zero operator, an unknown symbol and a value of another
    type are never allowed.  An operator given by its symbol is allowed
    exactly when the constant is. *)
Theorem keywordAllowsComparisonOperator_operators (kw : any) :
  (forall op, keywordAllowsComparisonOperator kw op = true ->
     exists c, In c operators /\ resolves op c)
  /\ (forall c, In c operators ->
        keywordAllowsComparisonOperator kw (any_string (stackage.cop_String c))
        = keywordAllowsComparisonOperator kw (any_ComparisonOperator c)).
Proof.
  split.
  - intros op H.
    assert (Hcop : forall c,
               keywordAllowsComparisonOperator kw (any_ComparisonOperator c) = true ->
               In c operators).
    { intros c Hc. unfold keywordAllowsComparisonOperator in Hc.
      destruct kw as [|s|i|c'|t|b|]; try discriminate.
      - destruct (negb (BindKeyword_eqb (matchBKW s) badBKW)).
        + exact (bind_permitted_operator _ _ Hc).
        + destruct (negb (TargetKeyword_eqb (matchTKW s) badTKW));
            [exact (target_permitted_operator _ _ Hc) | discriminate].
      - exact (target_permitted_operator _ _ Hc).
      - exact (bind_permitted_operator _ _ Hc). }
    destruct op as [|s|i|c|t|b|];
      try (unfold keywordAllowsComparisonOperator in H; discriminate).
    + assert (Hs : keywordAllowsComparisonOperator kw
                     (any_ComparisonOperator (matchCOP s)) = true) by exact H.
      apply Hcop in Hs. exists (matchCOP s). split; [exact Hs|].
      destruct (matchCOP_spec s) as [E|[_ E]].
      * exfalso. exact (operator_nonzero _ Hs E).
      * rewrite <- E at 1. apply resolves_symbol. exact Hs.
    + exists c. split; [exact (Hcop c H) | apply resolves_cop].
  - intros c Hc. unfold keywordAllowsComparisonOperator.
    rewrite (matchCOP_symbol c Hc). reflexivity.
Qed.

Lemma keywordAllowsComparisonOperator_operators_witness :
  (exists c, In c operators /\ resolves (any_string ">=") c)
  /\ keywordAllowsComparisonOperator (any_BindKeyword BindSSF) (any_string "<")
     = keywordAllowsComparisonOperator (any_BindKeyword BindSSF)
         (any_ComparisonOperator Lt).
Proof.
  destruct (keywordAllowsComparisonOperator_operators (any_BindKeyword BindSSF))
    as [Honly Hsym].
  split.
  - apply (Honly (any_string ">=")). reflexivity.
  - apply (Hsym Lt). simpl. tauto.
Defined.

(** The ordering operators. *)
Lemma ordering_cases (c : ComparisonOperator) :
  In c [Lt; Le; Gt; Ge] -> c <> Eq /\ c <> Ne /\ In c operators.
Proof.
  intros H. simpl in H.
  repeat (destruct H as [<-|H]; [repeat split; (discriminate || simpl; tauto)|]).
  destruct H.
Qed.

(** X6. The shape of the registry: every Target and Bind keyword allows
    Eq; an ordering operator (Lt, Le, Gt, Ge) is allowed for the Bind
    keywords ssf and timeofday and for no other keyword; and the zero
    keywords, like values that are no keyword at all, allow nothing. *)
Theorem registry_shape :
  (forall k, k <> badTKW ->
     keywordAllowsComparisonOperator (any_TargetKeyword k)
       (any_ComparisonOperator Eq) = true)
  /\ (forall k, k <> badBKW ->
        keywordAllowsComparisonOperator (any_BindKeyword k)
          (any_ComparisonOperator Eq) = true)
  /\ (forall c k, In c [Lt; Le; Gt; Ge] ->
        keywordAllowsComparisonOperator (any_TargetKeyword k)
          (any_ComparisonOperator c) = false)
  /\ (forall c k, In c [Lt; Le; Gt; Ge] ->
        (keywordAllowsComparisonOperator (any_BindKeyword k)
           (any_ComparisonOperator c) = true
         <-> k = BindSSF \/ k = BindToD))
  /\ (forall op,
        keywordAllowsComparisonOperator (any_TargetKeyword badTKW) op = false
        /\ keywordAllowsComparisonOperator (any_BindKeyword badBKW) op = false
        /\ keywordAllowsComparisonOperator any_nil op = false
        /\ keywordAllowsComparisonOperator any_other op = false).
Proof.
  split; [|split; [|split; [|split]]].
  - intros k Hk. destruct k; (reflexivity || contradiction).
  - intros k Hk. destruct k; (reflexivity || contradiction).
  - intros c k Hc. simpl in Hc.
    repeat (destruct Hc as [<-|Hc]; [destruct k; reflexivity|]). destruct Hc.
  - intros c k Hc. simpl in Hc.
    repeat (destruct Hc as [<-|Hc];
            [destruct k; split;
             solve [ intros _; auto | discriminate | reflexivity
                   | intros [H|H]; discriminate ] |]).
    destruct Hc.
  - intros op. destruct op; repeat split.
Qed.

Lemma registry_shape_witness :
  keywordAllowsComparisonOperator (any_TargetKeyword TargetScope)
    (any_ComparisonOperator Eq) = true
  /\ keywordAllowsComparisonOperator (any_TargetKeyword Target)
       (any_ComparisonOperator Ge) = false
  /\ (keywordAllowsComparisonOperator (any_BindKeyword BindToD)
        (any_ComparisonOperator Ge) = true
      <-> BindToD = BindSSF \/ BindToD = BindToD).
Proof.
  destruct registry_shape as [HT [_ [Hord [Hbind _]]]].
  split; [apply HT; discriminate|].
  split; [apply Hord; simpl; tauto|].
  apply Hbind. simpl. tauto.
Defined.

(** ** target.go: TargetRuleMethods *)

Lemma operator_in_range (c : ComparisonOperator) :
  In c operators -> (1 <=? c) && (c <=? 6) = true.
Proof. intros H. each_operator H; reflexivity. Qed.

Lemma index_int_lookup (m : targetRuleFuncMap) (c : ComparisonOperator) :
  In c operators ->
  index_int c (Some m)
  = Returns (match m !! c with
             | Some meth => (c, meth)
             | None => (badCop, None)
             end).
Proof.
  intros Hc. unfold index_int, bind, deref. rewrite (operator_in_range c Hc).
  cbn [negb]. unfold ComparisonOperator, stackage.ComparisonOperator in *.
  destruct (m !! c); reflexivity.
Qed.

Lemma rangeEntries_lookup (m : targetRuleFuncMap) (c : ComparisonOperator)
  (form candidate : string) :
  keys_are_operators (Some m) ->
  In c operators -> In form (forms c) ->
  strings.EqualFold candidate form = true ->
  rangeEntries candidate (map_to_list m)
  = match m !! c with
    | Some meth => (c, meth)
    | None => (badCop, None)
    end.
Proof.
  intros Hkeys Hc Hform Hfold.
  destruct (entries_of_map m (map_to_list m) (Permutation_refl _)) as [Hnd Hin].
  pose proof (forms_unique c form candidate Hc Hform Hfold) as Hother.
  destruct (m !! c) as [meth|] eqn:Hlook.
  - apply rangeEntries_found; try assumption.
    + apply Hin. exact Hlook.
    + exact (strInSliceFold_In candidate form (forms c) Hform Hfold).
  - apply rangeEntries_no_match. intros k Hk.
    apply in_map_iff in Hk. destruct Hk as [[k' meth] [<- Hk]].
    apply Hother. simpl. intros ->. apply Hin in Hk. congruence.
Qed.

(** X7. The three ways of indexing agree.  For a method map whose keys
    are operators, Index by the integer 1..6, by the ComparisonOperator
    and by any of the operator's three texts (in any case) return the
    same pair: the operator with its method when the map holds it, the
    invalid operator with a nil method when it does not. *)
Theorem TargetRuleMethods_Index_agree (m : targetRuleFuncMap)
  (c : ComparisonOperator) (form candidate : string) :
  keys_are_operators (Some m) ->
  In c operators -> In form (forms c) ->
  strings.EqualFold candidate form = true ->
  let r := newTargetRuleMethods m in
  let res := Returns (match m !! c with
                      | Some meth => (c, meth)
                      | None => (badCop, None)
                      end) in
  TargetRuleMethods_Index (any_int c) r = res
  /\ TargetRuleMethods_Index (any_ComparisonOperator c) r = res
  /\ TargetRuleMethods_Index (any_string candidate) r = res.
Proof.
  intros Hkeys Hc Hform Hfold. cbv zeta.
  unfold newTargetRuleMethods. destruct (decide (size m = 0%nat)) as [Hz|Hnz].
  - apply map_size_empty_iff in Hz. subst m. rewrite lookup_empty.
    repeat split.
  - unfold TargetRuleMethods_Index, TargetRuleMethods_index.
    cbn [TargetRuleMethods_IsZero].
    rewrite (index_int_lookup m c Hc). split; [reflexivity|]. split; [reflexivity|].
    change (Returns (rangeEntries candidate (map_to_list m))
            = Returns (match m !! c with
                       | Some meth => (c, meth)
                       | None => (badCop, None)
                       end)).
    rewrite (rangeEntries_lookup m c form candidate Hkeys Hc Hform Hfold).
    reflexivity.
Qed.

Lemma TargetRuleMethods_Index_agree_witness :
  let r := newTargetRuleMethods methods_Eq_Ne in
  TargetRuleMethods_Index (any_int 2) r = Returns (Ne, None)
  /\ TargetRuleMethods_Index (any_ComparisonOperator Ne) r = Returns (Ne, None)
  /\ TargetRuleMethods_Index (any_string "NOT EQUAL TO") r = Returns (Ne, None).
Proof.
  apply (TargetRuleMethods_Index_agree methods_Eq_Ne Ne "Not Equal To"
           "NOT EQUAL TO").
  - exact methods_Eq_Ne_keys.
  - simpl. tauto.
  - simpl. tauto.
  - reflexivity.
Defined.

(** X8. TargetRuleMethods.Valid returns an error on a zero receiver, and
    otherwise the verdict of the rule that the method registered for Eq
    builds; on a receiver whose map has no method for Eq, or a nil one,
    the call of that method panics. *)
Theorem TargetRuleMethods_Valid_cases (r : TargetRuleMethods) :
  TargetRuleMethods_Valid r
  = match r with
    | None => Returns (Some "aci.TargetRuleMethods instance is nil")
    | Some m =>
        match m !! Eq with
        | Some (Some meth) => Returns (TargetRule_Valid (meth tt))
        | _ => Panics
        end
    end
  /\ (TargetRuleMethods_Valid r = Panics <->
      exists m, r = Some m /\ (m !! Eq = None \/ m !! Eq = Some None))
  /\ (forall m, TargetRuleMethods_Valid (newTargetRuleMethods m) = Panics ->
        m <> ∅).
Proof.
  assert (Heq : TargetRuleMethods_Valid r
                = match r with
                  | None => Returns (Some "aci.TargetRuleMethods instance is nil")
                  | Some m =>
                      match m !! Eq with
                      | Some (Some meth) => Returns (TargetRule_Valid (meth tt))
                      | _ => Panics
                      end
                  end).
  { destruct r as [m|]; [|reflexivity].
    unfold TargetRuleMethods_Valid, TargetRuleMethods_Index,
      TargetRuleMethods_index.
    cbn [TargetRuleMethods_IsZero].
    rewrite (index_int_lookup m Eq) by (simpl; tauto).
    destruct (m !! Eq) as [[meth|]|]; reflexivity. }
  split; [exact Heq|]. split.
  - rewrite Heq. destruct r as [m|].
    + destruct (m !! Eq) as [[meth|]|] eqn:E; split.
      * discriminate.
      * intros [m' [Hm [H|H]]]; inversion Hm; subst;
          unfold TargetRuleMethod in *; congruence.
      * intros _. exists m. split; [reflexivity | right; exact E].
      * reflexivity.
      * intros _. exists m. split; [reflexivity | left; exact E].
      * reflexivity.
    + split; [discriminate | intros [m [H _]]; discriminate].
  - intros m H Hm. subst m. discriminate H.
Qed.

(** ** target.go: TargetRule setters *)

Lemma permitted_nonzero_rule (r : TargetRule) (c : ComparisonOperator) :
  permitted (TargetRule_Keyword r) c -> exists cond, r = Some cond.
Proof.
  intros [cops [E _]]. destruct r as [cond|]; [eauto|].
  discriminate E.
Qed.

(** SetOperator of a registered operator, as the constant or as its
    symbol. *)
Lemma SetOperator_permitted (cond : stackage.condition) (c : ComparisonOperator) :
  permitted (TargetRule_Keyword (Some cond)) c ->
  TargetRule_SetOperator (any_ComparisonOperator c) (Some cond)
  = Some (stackage.set_op (Some c) cond)
  /\ TargetRule_SetOperator (any_string (stackage.cop_String c)) (Some cond)
     = Some (stackage.set_op (Some c) cond).
Proof.
  intros Hperm.
  pose proof (permitted_operator _ _ Hperm) as Hop.
  pose proof (operator_nonzero c Hop) as Hnz.
  split.
  - unfold TargetRule_SetOperator.
    change (keywordAllowsComparisonOperator
              (any_TargetKeyword (TargetRule_Keyword (Some cond)))
              (any_ComparisonOperator c))
      with (targetKeywordAllowsComparisonOperator
              (TargetRule_Keyword (Some cond)) c).
    rewrite (proj2 (permitted_iff _ _) Hperm). cbn [negb].
    destruct (Z.eqb_spec c 0) as [E|_]; [contradiction|]. reflexivity.
  - unfold TargetRule_SetOperator.
    change (keywordAllowsComparisonOperator
              (any_TargetKeyword (TargetRule_Keyword (Some cond)))
              (any_string (stackage.cop_String c)))
      with (targetKeywordAllowsComparisonOperator
              (TargetRule_Keyword (Some cond))
              (matchCOP (stackage.cop_String c))).
    rewrite (matchCOP_symbol c Hop), (proj2 (permitted_iff _ _) Hperm).
    cbn [negb].
    destruct (Z.eqb_spec c 0) as [E|_]; [contradiction|]. reflexivity.
Qed.

(** X9. SetOperator of an operator that is registered for the rule's
    keyword, given as the constant or as its symbol, stores that operator
    and changes nothing else: keyword, expression, parenthesization,
    padding, encapsulation and identifier stay as they were. *)
Theorem TargetRule_SetOperator_sets (r : TargetRule) (c : ComparisonOperator) :
  permitted (TargetRule_Keyword r) c ->
  exists cond,
    r = Some cond
    /\ TargetRule_SetOperator (any_ComparisonOperator c) r
       = Some (stackage.set_op (Some c) cond)
    /\ TargetRule_SetOperator (any_string (stackage.cop_String c)) r
       = Some (stackage.set_op (Some c) cond)
    /\ stackage.Condition_Operator
         (TargetRule_SetOperator (any_ComparisonOperator c) r) = Some c
    /\ TargetRule_Keyword (TargetRule_SetOperator (any_ComparisonOperator c) r)
       = TargetRule_Keyword r
    /\ stackage.Condition_Expression
         (TargetRule_SetOperator (any_ComparisonOperator c) r)
       = stackage.Condition_Expression r.
Proof.
  intros Hperm.
  destruct (permitted_nonzero_rule r c Hperm) as [cond ->].
  destruct (SetOperator_permitted cond c Hperm) as [Hcop Hsym].
  exists cond. split; [reflexivity|]. split; [exact Hcop|].
  split; [exact Hsym|]. rewrite Hcop. repeat split.
Qed.

Lemma TargetRule_SetOperator_sets_witness :
  let r := TR true (any_TargetKeyword Target) (any_ComparisonOperator Eq)
             (stackage.ex_string "ldap:///ou=People,dc=example,dc=com") in
  exists cond,
    r = Some cond
    /\ TargetRule_SetOperator (any_ComparisonOperator Ne) r
       = Some (stackage.set_op (Some Ne) cond)
    /\ TargetRule_SetOperator (any_string (stackage.cop_String Ne)) r
       = Some (stackage.set_op (Some Ne) cond)
    /\ stackage.Condition_Operator
         (TargetRule_SetOperator (any_ComparisonOperator Ne) r) = Some Ne
    /\ TargetRule_Keyword (TargetRule_SetOperator (any_ComparisonOperator Ne) r)
       = TargetRule_Keyword r
    /\ stackage.Condition_Expression
         (TargetRule_SetOperator (any_ComparisonOperator Ne) r)
       = stackage.Condition_Expression r.
Proof.
  cbv zeta. apply TargetRule_SetOperator_sets.
  exists [Eq; Ne]. split; [reflexivity | simpl; tauto].
Defined.

Lemma SetKeyword_nonzero (kw : any) (r : TargetRule) :
  exists cond, TargetRule_SetKeyword kw r = Some cond.
Proof.
  unfold TargetRule_SetKeyword, stackage.Condition_SetKeyword.
  destruct (keyword_text kw); eauto.
Qed.

(** X10. A rule built by TR (newTargetRule) is never zero, and never
    holds an operator that its keyword does not register: an operator
    that is not legal for the keyword is left out of the rule. *)
Theorem TR_operator_permitted (RulePadding : bool) (kw op : any)
  (ex : stackage.expression) :
  TargetRule_IsZero (TR RulePadding kw op ex) = false
  /\ (forall c,
        stackage.Condition_Operator (TR RulePadding kw op ex) = Some c ->
        permitted (TargetRule_Keyword (TR RulePadding kw op ex)) c
        /\ resolves op c).
Proof.
  unfold TR, newTargetRule.
  destruct (SetKeyword_nonzero kw badTargetRule) as [c1 H1].
  assert (Hop1 : stackage.c_op c1 = None).
  { unfold TargetRule_SetKeyword, stackage.Condition_SetKeyword in H1.
    destruct (keyword_text kw); inversion H1; reflexivity. }
  rewrite H1.
  destruct (keywordAllowsComparisonOperator
              (any_TargetKeyword (TargetRule_Keyword (Some c1))) op) eqn:Hallow.
  - destruct (allowed_resolves _ _ Hallow) as [c [Hres Hperm]].
    assert (Hset : TargetRule_SetOperator op (Some c1)
                   = Some (stackage.set_op (Some c) c1)).
    { destruct (SetOperator_permitted c1 c Hperm) as [Hcop Hsym].
      inversion Hres; subst; assumption. }
    rewrite Hset. split; [reflexivity|].
    intros c' Hc'. simpl in Hc'. inversion Hc'; subst c'.
    split; [exact Hperm | exact Hres].
  - rewrite (SetOperator_not_allowed (Some c1) op Hallow).
    split; [reflexivity|].
    intros c' Hc'. simpl in Hc'. congruence.
Qed.

Lemma TR_operator_permitted_witness :
  permitted
    (TargetRule_Keyword
       (TR true (any_string "TargetFilter") (any_string "!=")
          (stackage.ex_string "(objectClass=*)"))) Ne
  /\ resolves (any_string "!=") Ne.
Proof.
  apply (proj2 (TR_operator_permitted true (any_string "TargetFilter")
                  (any_string "!=") (stackage.ex_string "(objectClass=*)"))).
  reflexivity.
Defined.

(** ** target.go: SetQuoteStyle *)

Ltac each_keyword H :=
  simpl in H; repeat (destruct H as [H|H]; [|]); [ .. | destruct H].

(** SetQuoteStyle on a rule whose expression is not a stack. *)
Lemma SetQuoteStyle_scalar (style : Z) (cond : stackage.condition) :
  (forall s, stackage.c_ex cond <> stackage.ex_stack s) ->
  (In (TargetRule_Keyword (Some cond))
      [Target; TargetTo; TargetFrom; TargetExtOp; TargetCtrl; TargetAttr] ->
   TargetRule_SetQuoteStyle style (Some cond) = Some cond)
  /\ (In (TargetRule_Keyword (Some cond))
         [badTKW; TargetScope; TargetFilter; TargetAttrFilters] ->
      TargetRule_SetQuoteStyle style (Some cond)
      = Some (stackage.set_encap
                (if style =? MultivalSliceQuotes then None else Some dquote)
                cond)).
Proof.
  intros Hscalar. unfold TargetRule_SetQuoteStyle, through, castAsCondition.
  cbn [stackage.Condition_Expression stackage.Condition_Encap stackage.init].
  split; intros Hk.
  - each_keyword Hk; rewrite <- Hk;
      (destruct (stackage.c_ex cond) as [| |s] eqn:E;
       [reflexivity | reflexivity | exfalso; exact (Hscalar s eq_refl)]).
  - each_keyword Hk; rewrite <- Hk;
      destruct (style =? MultivalSliceQuotes); reflexivity.
Qed.

(** X11. On a rule with a scalar expression, SetQuoteStyle does nothing
    when the keyword is one of the multi-valued ones (target, target_to,
    target_from, extop, targetcontrol, targetattr); for any other keyword
    it sets the encapsulation of the value, so that the per-element style
    removes the quotes altogether: such a rule then renders as
    ( <keyword> <operator> <value> ) with a bare value. *)
Theorem TargetRule_SetQuoteStyle_scalar (style : Z) (kw : string)
  (o : ComparisonOperator) (e : string) (paren : bool) (q : option string)
  (id category : string) :
  let cond := stackage.mkCondition kw (Some o) (stackage.ex_string e) paren
                false q id category in
  (In (matchTKW kw)
      [Target; TargetTo; TargetFrom; TargetExtOp; TargetCtrl; TargetAttr] ->
   TargetRule_SetQuoteStyle style (Some cond) = Some cond)
  /\ (In (matchTKW kw) [badTKW; TargetScope; TargetFilter; TargetAttrFilters] ->
      TargetRule_SetQuoteStyle style (Some cond)
      = Some (stackage.set_encap
                (if style =? MultivalSliceQuotes then None else Some dquote)
                cond)
      /\ TargetRule_String
           (TargetRule_SetQuoteStyle MultivalSliceQuotes (Some cond))
         = "( " ++ kw ++ " " ++ stackage.cop_String o ++ " " ++ e ++ " )"
      /\ TargetRule_String
           (TargetRule_SetQuoteStyle MultivalOuterQuotes (Some cond))
         = "( " ++ kw ++ " " ++ stackage.cop_String o ++ " "
           ++ dquote ++ e ++ dquote ++ " )").
Proof.
  cbv zeta.
  set (cond := stackage.mkCondition kw (Some o) (stackage.ex_string e) paren
                 false q id category).
  assert (Hscalar : forall s, stackage.c_ex cond <> stackage.ex_stack s)
    by (intros s; discriminate).
  destruct (SetQuoteStyle_scalar style cond Hscalar) as [Hmulti Hother].
  split; [exact Hmulti|]. intros Hk. split; [exact (Hother Hk)|].
  split.
  - rewrite (proj2 (SetQuoteStyle_scalar MultivalSliceQuotes cond Hscalar) Hk).
    rewrite TargetRule_String_shape. subst cond.
    cbn [stackage.c_nopad stackage.c_kw stackage.c_op stackage.c_encap
         stackage.c_ex stackage.pad_of stackage.operator_text
         stackage.expression_text stackage.encapv stackage.set_encap
         Z.eqb MultivalSliceQuotes Pos.eqb].
    same_text.
  - rewrite (proj2 (SetQuoteStyle_scalar MultivalOuterQuotes cond Hscalar) Hk).
    rewrite TargetRule_String_shape. subst cond.
    cbn [stackage.c_nopad stackage.c_kw stackage.c_op stackage.c_encap
         stackage.c_ex stackage.pad_of stackage.operator_text
         stackage.expression_text stackage.encapv stackage.set_encap
         Z.eqb MultivalOuterQuotes MultivalSliceQuotes].
    same_text.
Qed.

Lemma TargetRule_SetQuoteStyle_scalar_witness :
  let r := TR true (any_TargetKeyword TargetScope) (any_ComparisonOperator Eq)
             (stackage.ex_string "onelevel") in
  let t := TR true (any_TargetKeyword Target) (any_ComparisonOperator Eq)
             (stackage.ex_string "ldap:///ou=People,dc=example,dc=com") in
  TargetRule_String (TargetRule_SetQuoteStyle MultivalSliceQuotes r)
  = "( targetscope = onelevel )"
  /\ TargetRule_SetQuoteStyle MultivalSliceQuotes t = t.
Proof.
  cbv zeta. split.
  - apply (proj2 (TargetRule_SetQuoteStyle_scalar MultivalSliceQuotes
                    "targetscope" Eq "onelevel" true (Some dquote)
                    targetRuleID "")).
    simpl. tauto.
  - apply (proj1 (TargetRule_SetQuoteStyle_scalar MultivalSliceQuotes
                    "target" Eq "ldap:///ou=People,dc=example,dc=com" true
                    (Some dquote) targetRuleID "")).
    simpl. tauto.
Defined.

Lemma SetQuoteStyle_restyled (style : Z) (cond : stackage.condition) :
  TargetRule_SetQuoteStyle style (Some cond)
  = Some (restyled style (matchTKW (stackage.c_kw cond)) cond).
Proof.
  unfold TargetRule_SetQuoteStyle, through, castAsCondition, TargetRule_Keyword,
    castAsCondition, AttributeTypes_setQuoteStyle,
    ObjectIdentifiers_setQuoteStyle, TargetDistinguishedNames_setQuoteStyle,
    restyled.
  cbn [stackage.Condition_Keyword stackage.Condition_Expression
       stackage.Condition_Encap stackage.init].
  generalize (matchTKW (stackage.c_kw cond)). intros k.
  destruct k; destruct (stackage.c_ex cond);
    destruct (style =? MultivalSliceQuotes); reflexivity.
Qed.

Lemma restyled_frame (style : Z) (k : TargetKeyword) (cond : stackage.condition) :
  stackage.c_kw (restyled style k cond) = stackage.c_kw cond
  /\ stackage.c_op (restyled style k cond) = stackage.c_op cond
  /\ expression_values (stackage.c_ex (restyled style k cond))
     = expression_values (stackage.c_ex cond).
Proof.
  unfold restyled, setQuoteStyle.
  destruct k; destruct (stackage.c_ex cond) eqn:E;
    destruct (style =? MultivalSliceQuotes); cbn; rewrite ?E; auto.
Qed.

Lemma restyled_last (s1 s2 : Z) (k : TargetKeyword) (cond : stackage.condition) :
  restyled s2 k (restyled s1 k cond) = restyled s2 k cond.
Proof.
  destruct cond as [kw op ex p n q i cat]. unfold restyled, setQuoteStyle.
  destruct k; destruct ex;
    destruct (s1 =? MultivalSliceQuotes); destruct (s2 =? MultivalSliceQuotes);
    reflexivity.
Qed.

(** X12. The quotation style of a rule is the one of the last
    SetQuoteStyle: an earlier call leaves no trace.  SetQuoteStyle never
    changes the keyword, the operator or the values of the expression,
    and leaves a zero rule zero. *)
Theorem TargetRule_SetQuoteStyle_last (s1 s2 : Z) (r : TargetRule) :
  TargetRule_SetQuoteStyle s2 (TargetRule_SetQuoteStyle s1 r)
  = TargetRule_SetQuoteStyle s2 r
  /\ stackage.Condition_Keyword (TargetRule_SetQuoteStyle s1 r)
     = stackage.Condition_Keyword r
  /\ stackage.Condition_Operator (TargetRule_SetQuoteStyle s1 r)
     = stackage.Condition_Operator r
  /\ expression_values
       (stackage.Condition_Expression (TargetRule_SetQuoteStyle s1 r))
     = expression_values (stackage.Condition_Expression r)
  /\ TargetRule_IsZero (TargetRule_SetQuoteStyle s1 r) = TargetRule_IsZero r.
Proof.
  destruct r as [cond|]; [|repeat split].
  rewrite !SetQuoteStyle_restyled.
  destruct (restyled_frame s1 (matchTKW (stackage.c_kw cond)) cond)
    as [Hkw [Hop Hex]].
  split; [|repeat split; assumption].
  rewrite Hkw, restyled_last. reflexivity.
Qed.

(** ** target.go: TargetRules *)

Lemma elements_Index (r : TargetRules) (e : TargetRule) :
  In e (elements r) ->
  exists i, 0 <= i < TargetRules_Len r /\ TargetRules_Index r i = e.
Proof.
  destruct r as [s|]; simpl; [|tauto].
  intros Hin. apply In_nth_error in Hin. destruct Hin as [n Hn].
  exists (Z.of_nat n). split.
  - assert (n < length (stackage.s_elems s))%nat
      by (apply nth_error_Some; congruence). lia.
  - unfold TargetRules_Index, stackage.Stack_Index.
    destruct (Z.ltb_spec (Z.of_nat n) 0); [lia|].
    rewrite Nat2Z.id, Hn. reflexivity.
Qed.

Lemma In_keywords_of (k : TargetKeyword) (l : list TargetRule) :
  In k (keywords_of l) <->
  k <> badTKW /\ exists e, In e l /\ TargetRule_Keyword e = k.
Proof.
  unfold keywords_of. rewrite List.filter_In, in_map_iff. split.
  - intros [[e [He Hin]] Hk]. split.
    + intros ->. discriminate Hk.
    + exists e. auto.
  - intros [Hk [e [Hin He]]]. split; [exists e; auto|].
    destruct (TargetKeyword_eqb k badTKW) eqn:E; [|reflexivity].
    apply TargetKeyword_eqb_eq in E. contradiction.
Qed.

(** What the policy has checked when a push goes through. *)
Lemma TargetRules_Push1_accepted (r : TargetRules) (tv : TargetRule) :
  TargetRules_Push1 r tv = r \/
  exists s, r = Some s
            /\ stackage.capReached s = false
            /\ TargetRule_IsZero tv = false
            /\ TargetRules_contains r (any_TargetKeyword (TargetRule_Keyword tv))
               = false
            /\ TargetRules_Push1 r tv = Some (stackage.append_elem tv s).
Proof.
  unfold TargetRules_Push1, stackage.Stack_Push.
  destruct r as [s|]; [|left; reflexivity].
  destruct (stackage.s_readonly s); [left; reflexivity|].
  destruct (stackage.capReached s) eqn:Hcap; [left; reflexivity|].
  unfold TargetRules_pushPolicy.
  destruct (TargetRules_contains (Some s) _) eqn:Hc; [left; reflexivity|].
  destruct (TargetRule_IsZero tv) eqn:Hz; [left; reflexivity|].
  right. exists s. auto.
Qed.

Lemma TargetRules_inv_Push1 (r : TargetRules) (tv : TargetRule) :
  TargetRules_inv r -> TargetRules_inv (TargetRules_Push1 r tv).
Proof.
  intros Hinv.
  destruct (TargetRules_Push1_accepted r tv)
    as [->|[s [Hr [Hcap [Hz [Hc ->]]]]]]; [exact Hinv|].
  destruct Hinv as [s' [Hs' [Hc9 [Hlen [Hnz Hnd]]]]].
  rewrite Hr in Hs'. inversion Hs'; subst s'. clear Hs'.
  exists (stackage.append_elem tv s). split; [reflexivity|].
  cbn [stackage.append_elem stackage.s_cap stackage.s_elems].
  split; [exact Hc9|]. split; [|split].
  - unfold stackage.capReached in Hcap. rewrite Hc9 in Hcap.
    rewrite length_app. simpl.
    destruct (Z.leb_spec 9 (Z.of_nat (length (stackage.s_elems s))));
      [discriminate | lia].
  - apply List.Forall_app. split; [exact Hnz|]. constructor; [exact Hz|constructor].
  - unfold keywords_of. rewrite map_app, List.filter_app.
    apply List.NoDup_app; [exact Hnd| |].
    + simpl. destruct (negb _); constructor; [intros []|constructor].
    + intros k Hk Hk'. simpl in Hk'.
      destruct (negb (TargetKeyword_eqb (TargetRule_Keyword tv) badTKW)) eqn:E;
        [|destruct Hk'].
      destruct Hk' as [<-|[]].
      apply In_keywords_of in Hk. destruct Hk as [Hbad [e [Hin He]]].
      assert (Hex : exists i, 0 <= i < TargetRules_Len r
                              /\ TargetRule_Keyword (TargetRules_Index r i)
                                 = TargetRule_Keyword tv).
      { rewrite Hr. destruct (elements_Index (Some s) e Hin) as [i [Hi Hidx]].
        exists i. rewrite Hidx. auto. }
      apply (TargetRules_contains_keyword r _ Hbad) in Hex. congruence.
Qed.

Lemma TargetRules_inv_Push (x : list TargetRule) (r : TargetRules) :
  TargetRules_inv r -> TargetRules_inv (TargetRules_Push r x).
Proof.
  revert r. induction x as [|x0 rest IH]; intros r H; [exact H|].
  simpl. apply IH. apply TargetRules_inv_Push1. exact H.
Qed.

(** X13. Whatever rules are pushed into a collection made by TRs, in
    whatever order, the collection never holds a zero rule, never
    holds two rules with the same Target keyword, and never holds more
    than nine rules. *)
Theorem TargetRules_invariant (StackPadding : bool) (x : list TargetRule) :
  let r := TargetRules_Push (TRs StackPadding) x in
  List.Forall (fun e => TargetRule_IsZero e = false) (elements r)
  /\ List.NoDup (keywords_of (elements r))
  /\ TargetRules_Len r <= 9.
Proof.
  cbv zeta.
  assert (H0 : TargetRules_inv (TRs StackPadding)).
  { eexists. split; [reflexivity|]. simpl. repeat split; try constructor. lia. }
  destruct (TargetRules_inv_Push x _ H0) as [s [-> [_ [Hlen [Hnz Hnd]]]]].
  simpl. repeat split; try assumption. lia.
Qed.

Lemma TargetRules_Push1_elements (r : TargetRules) (tv : TargetRule) :
  elements (TargetRules_Push1 r tv) = elements r
  \/ elements (TargetRules_Push1 r tv) = (elements r ++ [tv])%list.
Proof.
  destruct (TargetRules_Push1_accepted r tv) as [->|[s [-> [_ [_ [_ ->]]]]]];
    [left | right]; reflexivity.
Qed.

(** X14. Push only ever appends: the elements a collection held before
    are all still there afterwards, at the same indices and in the same
    order, followed by those of the pushed rules that were accepted, in
    the order given; Len() never decreases and grows by at most the number
    of rules pushed. *)
Theorem TargetRules_Push_appends (r : TargetRules) (x : list TargetRule) :
  exists added,
    elements (TargetRules_Push r x) = (elements r ++ added)%list
    /\ (forall e, In e added -> In e x)
    /\ TargetRules_Len r <= TargetRules_Len (TargetRules_Push r x)
       <= TargetRules_Len r + Z.of_nat (length x)
    /\ (forall i, 0 <= i < TargetRules_Len r ->
          TargetRules_Index (TargetRules_Push r x) i = TargetRules_Index r i).
Proof.
  assert (Hgen : forall x r, exists added,
             elements (TargetRules_Push r x) = (elements r ++ added)%list
             /\ (forall e, In e added -> In e x)
             /\ (length added <= length x)%nat).
  { clear. induction x as [|x0 rest IH]; intros r.
    - exists []. rewrite app_nil_r. simpl. auto.
    - simpl. destruct (IH (TargetRules_Push1 r x0)) as [added [He [Hin Hlen]]].
      destruct (TargetRules_Push1_elements r x0) as [E|E]; rewrite E in He.
      + exists added. split; [exact He|]. split; [auto | lia].
      + exists (x0 :: added). rewrite <- app_assoc in He. simpl in He.
        split; [exact He|]. split; [|simpl; lia].
        intros e [<-|H]; auto. }
  destruct (Hgen x r) as [added [He [Hin Hlen]]].
  exists added. split; [exact He|]. split; [exact Hin|].
  assert (HL : forall q : TargetRules,
             TargetRules_Len q = Z.of_nat (length (elements q))).
  { intros [s|]; reflexivity. }
  split.
  - rewrite !HL, He, length_app. lia.
  - intros i Hi. rewrite HL in Hi.
    assert (HI : forall q : TargetRules, TargetRules_Index q i
                   = match nth_error (elements q) (Z.to_nat i) with
                     | Some y => y
                     | None => badTargetRule
                     end).
    { intros [s|]; unfold TargetRules_Index, stackage.Stack_Index; simpl.
      - destruct (Z.ltb_spec i 0); [lia | reflexivity].
      - destruct (Z.to_nat i); reflexivity. }
    rewrite !HI, He, nth_error_app1 by lia. reflexivity.
Qed.

Lemma EqualFold_sym (a b : string) :
  strings.EqualFold a b = strings.EqualFold b a.
Proof. unfold strings.EqualFold. apply String.eqb_sym. Qed.

Lemma ToLower_empty (s : string) : strings.ToLower s = "" -> s = "".
Proof. destruct s; [reflexivity | discriminate]. Qed.

(** [contains] of a text: some element bears a keyword with that
    spelling, whatever the case of the letters. *)
Lemma TargetRules_contains_text (r : TargetRules) (t : string) :
  TargetRules_contains r (any_string t) = true <->
  t <> "" /\ exists e, In e (elements r)
                       /\ strings.EqualFold
                            (TargetKeyword_String (TargetRule_Keyword e)) t = true.
Proof.
  unfold TargetRules_contains. destruct r as [s|].
  2:{ simpl. split; [discriminate | intros [_ [e [[] _]]]]. }
  unfold TargetRules_Len, stackage.Stack_Len. rewrite Nat2Z.id.
  rewrite (contains_loop_existsb s _ (stackage.s_elems s) [] eq_refl).
  simpl elements.
  destruct (Z.eqb_spec (Z.of_nat (length (stackage.s_elems s))) 0) as [Hz|Hnz].
  { split; [discriminate|]. intros [_ [e [Hin _]]].
    destruct (stackage.s_elems s); [destruct Hin | simpl in Hz; lia]. }
  destruct t as [|c t]; simpl String.length.
  - split; [discriminate | intros [H _]; contradiction].
  - cbn [Nat.eqb]. rewrite existsb_exists. split.
    + intros H. split; [discriminate | exact H].
    + intros [_ H]. exact H.
Qed.

(** X15. After a rule with a Target keyword has been pushed into a
    collection that is neither read-only nor full, Contains answers true
    for that keyword, and for its spelling in any case -- whether the rule
    was accepted or an earlier rule already bore the keyword. *)
Theorem TargetRules_Push_Contains (s : stackage.stack TargetRule)
  (tv : TargetRule) (t : string) :
  stackage.s_readonly s = false ->
  stackage.capReached s = false ->
  TargetRule_Keyword tv <> badTKW ->
  strings.EqualFold t (TargetKeyword_String (TargetRule_Keyword tv)) = true ->
  TargetRules_Contains (TargetRules_Push (Some s) [tv])
    (any_TargetKeyword (TargetRule_Keyword tv)) = true
  /\ TargetRules_Contains (TargetRules_Push (Some s) [tv]) (any_string t) = true.
Proof.
  intros Hro Hcap Hk Hfold. unfold TargetRules_Contains.
  change (TargetRules_Push (Some s) [tv]) with (TargetRules_Push1 (Some s) tv).
  assert (Hnz : TargetRule_IsZero tv = false).
  { destruct tv; [reflexivity|]. exfalso. apply Hk. reflexivity. }
  assert (Hpresent : exists e,
             In e (elements (TargetRules_Push1 (Some s) tv))
             /\ TargetRule_Keyword e = TargetRule_Keyword tv).
  { unfold TargetRules_Push1, stackage.Stack_Push. rewrite Hro, Hcap.
    unfold TargetRules_pushPolicy. rewrite Hnz.
    destruct (TargetRules_contains (Some s)
                (any_TargetKeyword (TargetRule_Keyword tv))) eqn:Hc.
    - apply (TargetRules_contains_keyword (Some s) _ Hk) in Hc.
      destruct Hc as [i [Hi Hkw]].
      exists (TargetRules_Index (Some s) i). split; [|exact Hkw].
      unfold TargetRules_Index, stackage.Stack_Index in *.
      destruct (Z.ltb_spec i 0); [lia|].
      destruct (nth_error (stackage.s_elems s) (Z.to_nat i)) eqn:E.
      + simpl. eapply nth_error_In. exact E.
      + exfalso. apply Hk. rewrite <- Hkw. reflexivity.
    - exists tv. split; [|reflexivity]. simpl. apply in_or_app. simpl. auto. }
  destruct Hpresent as [e [Hin He]]. split.
  - apply (TargetRules_contains_keyword _ _ Hk).
    destruct (elements_Index _ e Hin) as [i [Hi Hidx]].
    exists i. split; [exact Hi|]. rewrite Hidx. exact He.
  - apply TargetRules_contains_text. split.
    + intros ->. apply EqualFold_true in Hfold. simpl in Hfold.
      symmetry in Hfold. apply ToLower_empty in Hfold.
      destruct (TargetRule_Keyword tv); discriminate.
    + exists e. split; [exact Hin|]. rewrite He, EqualFold_sym. exact Hfold.
Qed.

Lemma TargetRules_Push_Contains_witness :
  let s := stackage.mkStack [] 9 false "" false false None
             targetRuleID targetRuleID in
  let tv := TR true (any_TargetKeyword TargetFilter) (any_ComparisonOperator Eq)
              (stackage.ex_string "(uid=jesse)") in
  TargetRules_Contains (TargetRules_Push (Some s) [tv])
    (any_TargetKeyword (TargetRule_Keyword tv)) = true
  /\ TargetRules_Contains (TargetRules_Push (Some s) [tv])
       (any_string "TargetFilter") = true.
Proof.
  cbv zeta. apply TargetRules_Push_Contains.
  - reflexivity.
  - reflexivity.
  - discriminate.
  - reflexivity.
Defined.

(** X16. TRs called with values keeps the rules and drops everything
    else: the result is the collection obtained by pushing the rules
    among the values, in order, into an empty TRs(). *)
Theorem TRs_with_rules (StackPadding : bool) (x : list pushed) :
  TRs_with StackPadding x
  = TargetRules_Push (TRs StackPadding) (rules_of x).
Proof.
  unfold TRs_with. generalize (TRs StackPadding).
  induction x as [|v rest IH]; intros r; [reflexivity|].
  assert (Hstep : forall v (r : TargetRules),
             push_values r [v]
             = match v with
               | pushed_TargetRule tv => TargetRules_Push1 r tv
               | pushed_other => r
               end).
  { intros v' r'. simpl. unfold TargetRules_Push1, stackage.Stack_Push.
    destruct r' as [s|]; [|destruct v'; reflexivity].
    destruct (stackage.s_readonly s); [destruct v'; reflexivity|].
    destruct (stackage.capReached s); [destruct v'; reflexivity|].
    destruct v' as [tv|]; [|reflexivity].
    destruct (TargetRules_pushPolicy (Some s) (pushed_TargetRule tv));
      reflexivity. }
  change (push_values r (v :: rest)) with (push_values (push_values r [v]) rest).
  rewrite Hstep, IH. destruct v; reflexivity.
Qed.

Lemma TargetRuleMethods_Valid_cases_witness :
  TargetRuleMethods_Valid (Some methods_Eq_Ne) = Panics.
Proof.
  apply (proj1 (proj2 (TargetRuleMethods_Valid_cases (Some methods_Eq_Ne)))).
  exists methods_Eq_Ne. split; [reflexivity | right; reflexivity].
Defined.

(** ** pb.go *)

Section PermissionBindRule_properties.

Variable bindRuleID : string.
Variable zeroPermission : Permission.

Lemma pbr_valid_ok (r : PermissionBindRule) :
  PermissionBindRule_valid bindRuleID (Some r) = Returns None
  <-> pbr_ok bindRuleID r.
Proof.
  unfold PermissionBindRule_valid, pbr_ok.
  destruct r as [P [B|]]; simpl.
  - destruct (perm_Valid P) as [e|].
    { split; [discriminate | intros [H _]; discriminate]. }
    destruct (bc_Valid B) as [e|] eqn:EB.
    { split; [discriminate|].
      intros [_ [_ [B' [HB [HV _]]]]]. injection HB as <-. congruence. }
    destruct (Z.eqb_spec (bc_Len B) 0) as [HL|HL].
    { split; [discriminate|].
      intros [_ [_ [B' [HB [_ [HL' _]]]]]]. injection HB as <-. contradiction. }
    destruct (perm_IsZero P).
    { split; [discriminate | intros [_ [H _]]; discriminate]. }
    destruct (String.eqb_spec (bc_ID B) bindRuleID) as [HI|HI]; simpl.
    + split; [|reflexivity]. intros _. repeat split.
      exists B. repeat split; assumption.
    + split; [discriminate|].
      intros [_ [_ [B' [HB [_ [_ HI']]]]]]. injection HB as <-. contradiction.
  - destruct (perm_Valid P) as [e|]; simpl.
    + split; [discriminate | intros [H _]; discriminate].
    + split; [discriminate | intros [_ [_ [B' [HB _]]]]; discriminate].
Qed.

Lemma pbr_valid_panics (r : PermissionBindRule) :
  PermissionBindRule_valid bindRuleID (Some r) = Panics
  <-> perm_Valid (pbr_P r) = None /\ pbr_B r = None.
Proof.
  unfold PermissionBindRule_valid.
  destruct r as [P [B|]]; simpl.
  - destruct (perm_Valid P) as [e|].
    { split; [discriminate | intros [H _]; discriminate]. }
    split; [|intros [_ H]; discriminate].
    destruct (bc_Valid B); [discriminate|].
    destruct (bc_Len B =? 0); [discriminate|].
    destruct (perm_IsZero P); [discriminate|].
    destruct (negb (bc_ID B =? bindRuleID)%string); discriminate.
  - destruct (perm_Valid P) as [e|]; simpl.
    + split; [discriminate | intros [H _]; discriminate].
    + split; [intros _; split; reflexivity | reflexivity].
Qed.

Lemma pbr_valid_returns (r : PermissionBindRule) :
  pbr_B r <> None ->
  exists err, PermissionBindRule_valid bindRuleID (Some r) = Returns err.
Proof.
  intros HB.
  destruct (PermissionBindRule_valid bindRuleID (Some r)) as [err|] eqn:E.
  - exists err. reflexivity.
  - apply pbr_valid_panics in E. destruct E as [_ E]. contradiction.
Qed.

Lemma pbr_String_ok (r : PermissionBindRule) :
  pbr_ok bindRuleID r ->
  PermissionBindRule_String bindRuleID r = Returns (pbr_text r).
Proof.
  intros Hok. unfold PermissionBindRule_String.
  rewrite (proj2 (pbr_valid_ok r) Hok). simpl.
  destruct Hok as [_ [_ [B [HB _]]]].
  unfold pbr_text. rewrite HB. reflexivity.
Qed.

Lemma pbr_String_bad (r : PermissionBindRule) (s : string) :
  ~ pbr_ok bindRuleID r ->
  PermissionBindRule_String bindRuleID r = Returns s -> s = badPB.
Proof.
  intros Hno. unfold PermissionBindRule_String.
  destruct (PermissionBindRule_valid bindRuleID (Some r)) as [[e|]|] eqn:E; simpl.
  - intros H. injection H as <-. reflexivity.
  - apply pbr_valid_ok in E. contradiction.
  - discriminate.
Qed.

Lemma pbr_text_last (r : PermissionBindRule) (d : ascii) :
  last_byte (pbr_text r) d = ";"%char.
Proof.
  unfold pbr_text.
  set (b := match pbr_B r with Some B => bc_String B | None => "" end).
  change (perm_String (pbr_P r) ++ " " ++ b ++ ";")
    with (perm_String (pbr_P r) ++ String " " (b ++ String ";" "")).
  rewrite last_byte_app, last_byte_app. reflexivity.
Qed.

Lemma pbr_text_not_bad (r : PermissionBindRule) : pbr_text r <> badPB.
Proof.
  intros H. pose proof (pbr_text_last r "x") as HL.
  rewrite H in HL. vm_compute in HL. discriminate.
Qed.

Lemma pbr_text_nonempty (r : PermissionBindRule) :
  (String.length (pbr_text r) =? 0)%nat = false.
Proof.
  pose proof (pbr_text_last r "x") as HL.
  destruct (pbr_text r); [vm_compute in HL; discriminate | reflexivity].
Qed.

Lemma pbr_contains_loop_existsb (s : stackage.stack PermissionBindRule)
  (candidate : string) (rest seen : list PermissionBindRule) :
  stackage.s_elems s = (seen ++ rest)%list ->
  List.Forall (pbr_ok bindRuleID) rest ->
  pbr_contains_loop bindRuleID zeroPermission (Some s) candidate
    (Z.of_nat (length seen)) (length rest)
  = Returns (existsb (fun e => strings.EqualFold (pbr_text e) candidate) rest).
Proof.
  revert seen. induction rest as [|e rest IH]; intros seen Hs Hok; [reflexivity|].
  inversion Hok as [|? ? He Hrest]; subst.
  cbn [length pbr_contains_loop existsb].
  assert (HI : PermissionBindRules_Index zeroPermission (Some s)
                 (Z.of_nat (length seen)) = e).
  { unfold PermissionBindRules_Index, stackage.Stack_Index.
    destruct (Z.ltb_spec (Z.of_nat (length seen)) 0); [lia|].
    rewrite Nat2Z.id, Hs, nth_error_app2 by lia.
    rewrite Nat.sub_diag. reflexivity. }
  rewrite HI, (pbr_String_ok e He). cbn [bind].
  destruct (strings.EqualFold (pbr_text e) candidate); [reflexivity|].
  cbn [orb].
  replace (Z.of_nat (length seen) + 1) with (Z.of_nat (length (seen ++ [e])%list))
    by (rewrite length_app; simpl; lia).
  apply IH; [|assumption].
  rewrite <- app_assoc. exact Hs.
Qed.

Lemma pbr_contains_candidate (r : PermissionBindRules) (candidate : string) :
  PermissionBindRules_inv bindRuleID r ->
  (if PermissionBindRules_Len r =? 0 then Returns false
   else if (String.length candidate =? 0)%nat then Returns false
        else pbr_contains_loop bindRuleID zeroPermission r candidate 0
               (Z.to_nat (PermissionBindRules_Len r)))
  = Returns (negb (String.length candidate =? 0)%nat
             && existsb (fun e => strings.EqualFold (pbr_text e) candidate)
                  (pbr_elements r)).
Proof.
  intros [s [-> [_ [_ [Hok _]]]]].
  unfold PermissionBindRules_Len, stackage.Stack_Len. rewrite Nat2Z.id.
  cbn [pbr_elements].
  pose proof (pbr_contains_loop_existsb s candidate (stackage.s_elems s) []
                eq_refl Hok) as HL.
  change (Z.of_nat (length (@nil PermissionBindRule))) with 0 in HL.
  rewrite HL.
  destruct (Z.eqb_spec (Z.of_nat (length (stackage.s_elems s))) 0) as [Hz|Hz].
  - destruct (stackage.s_elems s); [|simpl in Hz; lia].
    rewrite andb_false_r. reflexivity.
  - destruct (String.length candidate =? 0)%nat; reflexivity.
Qed.

Lemma pbr_contains_rule (r : PermissionBindRules) (tv : PermissionBindRule) :
  PermissionBindRules_inv bindRuleID r ->
  pbr_ok bindRuleID tv ->
  PermissionBindRules_contains bindRuleID zeroPermission r (pbv_rule tv)
  = Returns (existsb (fun e => strings.EqualFold (pbr_text e) (pbr_text tv))
               (pbr_elements r)).
Proof.
  intros Hinv Hok.
  pose proof (pbr_contains_candidate r (pbr_text tv) Hinv) as H.
  rewrite pbr_text_nonempty in H. cbn [negb andb] in H.
  unfold PermissionBindRules_contains.
  rewrite (pbr_String_ok tv Hok). cbn [bind].
  rewrite pbr_text_nonempty.
  destruct (PermissionBindRules_Len r =? 0); exact H.
Qed.

Lemma texts_distinct_app (l : list PermissionBindRule) (tv : PermissionBindRule) :
  texts_distinct l ->
  (forall e, In e l -> strings.EqualFold (pbr_text e) (pbr_text tv) = false) ->
  texts_distinct (l ++ [tv])%list.
Proof.
  induction l as [|x l IH]; intros Hd Hn; simpl; [split; [intros y []|exact I]|].
  destruct Hd as [Hx Hl]. split.
  - intros y Hy. apply in_app_or in Hy. destruct Hy as [Hy|[<-|[]]].
    + apply Hx, Hy.
    + rewrite EqualFold_sym. apply Hn. left. reflexivity.
  - apply IH; [exact Hl|]. intros e He. apply Hn. right. exact He.
Qed.

Lemma pbr_admitted_dec (r : PermissionBindRules) (tv : PermissionBindRule) :
  existsb (fun e => strings.EqualFold (pbr_text e) (pbr_text tv)) (pbr_elements r)
  = false
  <-> (forall e, In e (pbr_elements r) ->
                 strings.EqualFold (pbr_text e) (pbr_text tv) = false).
Proof.
  split.
  - intros H e He.
    destruct (strings.EqualFold (pbr_text e) (pbr_text tv)) eqn:E; [|reflexivity].
    assert (Hex : existsb (fun e => strings.EqualFold (pbr_text e) (pbr_text tv))
                    (pbr_elements r) = true)
      by (apply existsb_exists; exists e; split; assumption).
    congruence.
  - intros H.
    destruct (existsb _ (pbr_elements r)) eqn:E; [|reflexivity].
    apply existsb_exists in E. destruct E as [e [He Ht]].
    rewrite (H e He) in Ht. discriminate.
Qed.

(** One push of a pair whose bind rule is not nil: the pair becomes the
    last element when the policy admits it, and nothing changes
    otherwise. *)
Lemma PermissionBindRules_Push1_step (r : PermissionBindRules)
  (tv : PermissionBindRule) :
  PermissionBindRules_inv bindRuleID r ->
  pbr_B tv <> None ->
  exists r',
    PermissionBindRules_Push1 bindRuleID zeroPermission r (pbv_rule tv) = Returns r'
    /\ PermissionBindRules_inv bindRuleID r'
    /\ (pbr_admitted bindRuleID r tv ->
        pbr_elements r' = (pbr_elements r ++ [tv])%list)
    /\ (~ pbr_admitted bindRuleID r tv -> r' = r).
Proof.
  intros Hinv HB.
  pose proof Hinv as [s [-> [Hro [Hcap [Hok Hd]]]]].
  unfold PermissionBindRules_Push1. rewrite Hro.
  unfold stackage.capReached. rewrite Hcap. cbn [Z.ltb Z.compare andb].
  unfold PermissionBindRules_pushPolicy.
  destruct (PermissionBindRule_valid bindRuleID (Some tv)) as [[e|]|] eqn:EV.
  - (* not valid: the text is badPB *)
    assert (Hno : ~ pbr_ok bindRuleID tv)
      by (intros H; apply pbr_valid_ok in H; congruence).
    assert (HS : PermissionBindRule_String bindRuleID tv = Returns badPB)
      by (unfold PermissionBindRule_String; rewrite EV; reflexivity).
    unfold PermissionBindRules_contains. rewrite HS. cbn [bind].
    pose proof (pbr_contains_candidate (Some s) badPB Hinv) as HC.
    rewrite HC. cbn [negb andb bind pbr_elements].
    exists (Some s). split.
    { destruct (existsb _ (stackage.s_elems s)); [reflexivity|].
      unfold PermissionBindRule_Valid. rewrite EV. reflexivity. }
    split; [exact Hinv|]. split; [|reflexivity].
    intros [H _]. contradiction.
  - apply pbr_valid_ok in EV.
    rewrite (pbr_contains_rule (Some s) tv Hinv EV). cbn [bind pbr_elements].
    destruct (existsb _ (stackage.s_elems s)) eqn:EX.
    + exists (Some s). split; [reflexivity|]. split; [exact Hinv|].
      split; [|reflexivity].
      intros [_ H]. pose proof (proj2 (pbr_admitted_dec (Some s) tv) H) as H'.
      cbn [pbr_elements] in H'. congruence.
    + unfold PermissionBindRule_Valid.
      rewrite (proj2 (pbr_valid_ok tv) EV). cbn [bind].
      exists (Some (stackage.append_elem tv s)). split; [reflexivity|].
      pose proof (proj1 (pbr_admitted_dec (Some s) tv) EX) as Hnew.
      cbn [pbr_elements] in Hnew.
      split; [|split].
      * exists (stackage.append_elem tv s). split; [reflexivity|]. simpl.
        split; [exact Hro|]. split; [exact Hcap|]. split.
        -- apply Forall_app. split; [exact Hok|]. constructor; [exact EV|constructor].
        -- apply texts_distinct_app; assumption.
      * intros _. reflexivity.
      * intros Hno. exfalso. apply Hno. split; assumption.
  - apply pbr_valid_panics in EV. destruct EV as [_ EV]. contradiction.
Qed.

Lemma PermissionBindRules_inv_PBRs (StackPadding : bool) :
  PermissionBindRules_inv bindRuleID (PBRs StackPadding).
Proof.
  eexists. split; [reflexivity|]. simpl.
  split; [reflexivity|]. split; [reflexivity|]. split; constructor.
Qed.

Lemma PermissionBindRules_Push_total (x : list pb_value) :
  forall r : PermissionBindRules,
  PermissionBindRules_inv bindRuleID r ->
  (forall tv, In (pbv_rule tv) x -> pbr_B tv <> None) ->
  exists r',
    PermissionBindRules_Push bindRuleID zeroPermission r x = Returns r'
    /\ PermissionBindRules_inv bindRuleID r'.
Proof.
  induction x as [|v rest IH]; intros r Hinv HB.
  - exists r. split; [reflexivity | exact Hinv].
  - cbn [PermissionBindRules_Push].
    assert (Hrest : forall tv, In (pbv_rule tv) rest -> pbr_B tv <> None)
      by (intros tv Hin; apply HB; right; exact Hin).
    destruct v as [t|tv|].
    + cbn [PermissionBindRules_Push1 bind]. apply IH; assumption.
    + destruct (PermissionBindRules_Push1_step r tv Hinv)
        as [r1 [H1 [Hinv1 _]]]; [apply HB; left; reflexivity|].
      rewrite H1. cbn [bind]. apply IH; assumption.
    + cbn [PermissionBindRules_Push1 bind]. apply IH; assumption.
Qed.

(** X17. [valid] accepts a pair exactly when the permission is valid and
    not zero and the bind rule is not nil, is valid, is not empty and
    bears the bind identifier; it panics, instead of returning an error,
    exactly when the permission is valid and the bind rule is the nil
    interface. *)
Theorem PermissionBindRule_valid_cases (r : PermissionBindRule) :
  (PermissionBindRule_valid bindRuleID (Some r) = Returns None
   <-> pbr_ok bindRuleID r)
  /\ (PermissionBindRule_valid bindRuleID (Some r) = Panics
      <-> perm_Valid (pbr_P r) = None /\ pbr_B r = None).
Proof.
  split; [apply pbr_valid_ok | apply pbr_valid_panics].
Qed.

(** X18. What [PBR] returns is the pair of its arguments when [valid]
    accepts the pair, and the zero value otherwise: it never returns a
    pair that is neither. *)
Theorem PBR_cases (P : Permission) (B : BindContext) (r : PermissionBindRule) :
  PBR bindRuleID zeroPermission P B = Returns r ->
  (pbr_ok bindRuleID (mkPermissionBindRule P B)
   /\ r = mkPermissionBindRule P B)
  \/ (~ pbr_ok bindRuleID (mkPermissionBindRule P B)
      /\ r = badPermissionBindRule zeroPermission).
Proof.
  unfold PBR, PermissionBindRule_Valid.
  destruct (PermissionBindRule_valid bindRuleID
              (Some (mkPermissionBindRule P B))) as [[e|]|] eqn:E; cbn [bind].
  - intros H. injection H as <-. right. split; [|reflexivity].
    intros Hok. apply pbr_valid_ok in Hok. congruence.
  - intros H. injection H as <-. left. split; [|reflexivity].
    apply pbr_valid_ok. exact E.
  - discriminate.
Qed.

(** X19. The text of a pair is [badPB] exactly when [valid] rejects it;
    the text of an accepted pair is the permission's text, a space, the
    bind rule's text and a semicolon, which is never [badPB]. *)
Theorem PermissionBindRule_String_cases (r : PermissionBindRule) (s : string) :
  PermissionBindRule_String bindRuleID r = Returns s ->
  (pbr_ok bindRuleID r ->
   s = perm_String (pbr_P r) ++ " "
       ++ match pbr_B r with Some B => bc_String B | None => "" end ++ ";")
  /\ (s = badPB <-> ~ pbr_ok bindRuleID r).
Proof.
  intros HS. split.
  - intros Hok. rewrite (pbr_String_ok r Hok) in HS. injection HS as <-.
    reflexivity.
  - split.
    + intros -> Hok. rewrite (pbr_String_ok r Hok) in HS. injection HS as HS.
      exact (pbr_text_not_bad r HS).
    + intros Hno. exact (pbr_String_bad r s Hno HS).
Qed.

(** X20. Pushing any values whose pairs all have a bind rule that is not
    nil into a fresh [PBRs] collection returns, and in the collection
    returned every element is a pair [valid] accepts and no two
    elements have the same text, up to case. *)
Theorem PermissionBindRules_invariant (StackPadding : bool) (x : list pb_value) :
  (forall tv, In (pbv_rule tv) x -> pbr_B tv <> None) ->
  exists r,
    PermissionBindRules_Push bindRuleID zeroPermission (PBRs StackPadding) x
    = Returns r
    /\ List.Forall (pbr_ok bindRuleID) (pbr_elements r)
    /\ texts_distinct (pbr_elements r).
Proof.
  intros HB.
  destruct (PermissionBindRules_Push_total x (PBRs StackPadding)
              (PermissionBindRules_inv_PBRs StackPadding) HB)
    as [r [Hr [s [-> [_ [_ [Hok Hd]]]]]]].
  exists (Some s). split; [exact Hr|]. split; assumption.
Qed.

(** X21. A pair with a valid permission and the nil interface as bind
    rule makes [Push] panic, on the fresh collection and on every
    collection that satisfies the invariant: the push policy calls
    [Valid] or [String] on the pair. *)
Theorem PermissionBindRules_Push_nil_bind (r : PermissionBindRules)
  (P : Permission) (rest : list pb_value) :
  PermissionBindRules_inv bindRuleID r ->
  perm_Valid P = None ->
  PermissionBindRules_Push bindRuleID zeroPermission r
    (pbv_rule (mkPermissionBindRule P None) :: rest) = Panics.
Proof.
  intros [s [-> [Hro [Hcap _]]]] HP.
  cbn [PermissionBindRules_Push].
  unfold PermissionBindRules_Push1. rewrite Hro.
  unfold stackage.capReached. rewrite Hcap. cbn [Z.ltb Z.compare andb].
  unfold PermissionBindRules_pushPolicy, PermissionBindRules_contains.
  assert (HV : PermissionBindRule_valid bindRuleID
                 (Some (mkPermissionBindRule P None)) = Panics)
    by (apply pbr_valid_panics; split; [exact HP | reflexivity]).
  unfold PermissionBindRule_String, PermissionBindRule_Valid. rewrite HV.
  destruct (PermissionBindRules_Len (Some s) =? 0); reflexivity.
Qed.



End PermissionBindRule_properties.

Lemma PBR_cases_witness :
  let P := mkPermission None false "allow(read,search)" in
  let B := Some (mkBindContext None 1 "bind" "( userdn = anyone )") in
  let zero := mkPermission (Some "aci.Permission instance is nil") true "" in
  (pbr_ok "bind" (mkPermissionBindRule P B)
   /\ mkPermissionBindRule P B = mkPermissionBindRule P B)
  \/ (~ pbr_ok "bind" (mkPermissionBindRule P B)
      /\ mkPermissionBindRule P B = badPermissionBindRule zero).
Proof.
  cbv zeta. apply PBR_cases. reflexivity.
Defined.

Lemma PermissionBindRule_String_cases_witness :
  let r := mkPermissionBindRule
             (mkPermission None false "allow(read,search)")
             (Some (mkBindContext None 1 "bind" "( userdn = anyone )")) in
  (pbr_ok "bind" r ->
   "allow(read,search) ( userdn = anyone );"
   = perm_String (pbr_P r) ++ " "
     ++ match pbr_B r with Some B => bc_String B | None => "" end ++ ";")
  /\ ("allow(read,search) ( userdn = anyone );" = badPB <-> ~ pbr_ok "bind" r).
Proof.
  cbv zeta. apply PermissionBindRule_String_cases. reflexivity.
Defined.

Lemma PermissionBindRules_invariant_witness :
  let zero := mkPermission (Some "aci.Permission instance is nil") true "" in
  let B := Some (mkBindContext None 1 "bind" "( userdn = anyone )") in
  let x := [pbv_rule (mkPermissionBindRule
                        (mkPermission None false "allow(read,search)") B);
            pbv_string "allow(write)";
            pbv_rule (mkPermissionBindRule
                        (mkPermission None false "ALLOW(read,search)") B);
            pbv_rule (mkPermissionBindRule zero B)] in
  exists r,
    PermissionBindRules_Push "bind" zero (PBRs true) x = Returns r
    /\ List.Forall (pbr_ok "bind") (pbr_elements r)
    /\ texts_distinct (pbr_elements r).
Proof.
  cbv zeta. apply PermissionBindRules_invariant.
  intros tv [H|[H|[H|[H|[]]]]]; try discriminate;
    injection H as <-; discriminate.
Defined.

Lemma PermissionBindRules_Push_nil_bind_witness :
  let zero := mkPermission (Some "aci.Permission instance is nil") true "" in
  PermissionBindRules_Push "bind" zero (PBRs true)
    [pbv_rule (mkPermissionBindRule
                 (mkPermission None false "allow(read,search)") None)]
  = Panics.
Proof.
  cbv zeta. apply PermissionBindRules_Push_nil_bind.
  - eexists. split; [reflexivity|]. simpl.
    split; [reflexivity|]. split; [reflexivity|]. split; constructor.
  - reflexivity.
Defined.


